(** * Numbers spreadsheet (northoffice): cell model, formula evaluation and
      recalculation, embedded from the spreadsheet application script.

    Conventions of the embedding.
    - JavaScript strings are [string] (sequences of 8-bit characters); the
      text handled here (cell labels, formulas, decimal numerals) is ASCII,
      and [toUpperCase] acts on ASCII letters.
    - Row and column indices are integers [Z]; the script computes them in
      double precision, which is exact for magnitudes below 2^53.  The
      properties about labels and spans are stated in that range
      ([exactIndex], [exactPos]).
    - Cell values and formula results are IEEE 754 binary64 numbers
      ([PrimFloat.float]), strings, or another primitive, wrapped in
      [JsValue].
    - [state.data] is an association list kept in insertion order, the
      enumeration order of a JavaScript object whose keys are cell labels.
    - The two things the script leaves to the engine, evaluating the
      substituted formula text and rendering numbers for the Swedish
      locale, are the fields of a [Host]; properties are stated for an
      arbitrary host and instantiated with [refHost].
    - Of the page, only the texts written into grid cells are kept in the
      state, as the log [cellText]; the status bar, the markup of the cell
      editor, the CSV fields and saving are functions of their own, the
      formula bar is left out.

    Definitions come first, in the order of the script: address codec,
    numbers and values, cell store and state, range aggregator, formula
    evaluator, formatter, recalculation, editing, grid dimensions, loading;
    then selection, keys, escaping and saving.  The properties follow. *)

From Stdlib Require Import ZArith List Bool Lia.
From Stdlib Require Import Strings.String Strings.Ascii.
From Stdlib Require Import Floats.
Import ListNotations.

Open Scope string_scope.
Open Scope Z_scope.

(** ** Characters and decimal numerals *)

(** [c.charCodeAt(0)] *)
Definition charCode (c : ascii) : Z := Z.of_N (N_of_ascii c).

(** [String.fromCharCode(n)], for codes below 256 *)
Definition fromCharCode (n : Z) : ascii := ascii_of_N (Z.to_N n).

(** The character class [[A-Z]] *)
Definition isUpper (c : ascii) : bool := (65 <=? charCode c) && (charCode c <=? 90).

(** The character class [\d] *)
Definition isDigit (c : ascii) : bool := (48 <=? charCode c) && (charCode c <=? 57).

Fixpoint allUpper (s : string) : bool :=
  match s with
  | "" => true
  | String c s' => isUpper c && allUpper s'
  end.

Fixpoint allDigits (s : string) : bool :=
  match s with
  | "" => true
  | String c s' => isDigit c && allDigits s'
  end.

(** Decimal digits of a non-negative integer, most significant first.  The
    first argument bounds the number of digits: [n <= Zpos fuel] is enough. *)
Fixpoint decimalDigits (fuel : positive) (n : Z) : string :=
  let last := String (fromCharCode (48 + n mod 10)) "" in
  match fuel with
  | xH => last
  | xO p | xI p => if n <? 10 then last else decimalDigits p (n / 10) ++ last
  end.

(** [String(n)] for an integer [n]: every digit is written.  The script's
    [n] is a binary64 number, so this is its text for magnitudes below
    2^53; properties that use it on labels carry that bound. *)
Definition intToString (n : Z) : string :=
  if n <? 0 then "-" ++ decimalDigits (Z.to_pos (- n)) (- n)
  else decimalDigits (Z.to_pos n) n.

(** [parseInt(s)] on the digit strings the script passes to it: the decimal
    value of the leading run of digits.  The script's result is this value
    as long as it is below 2^53, and its rounding to binary64 above;
    properties that use it on labels carry that bound. *)
Fixpoint parseIntAcc (acc : Z) (s : string) : Z :=
  match s with
  | "" => acc
  | String c s' =>
      if isDigit c then parseIntAcc (acc * 10 + (charCode c - 48)) s' else acc
  end.

Definition parseInt (s : string) : Z := parseIntAcc 0 s.

(** ** Configuration *)

Record Config := {
  defaultRows : Z;
  defaultCols : Z;
  maxRows : Z;
  maxCols : Z
}.

Definition CONFIG : Config :=
  {| defaultRows := 50; defaultCols := 26; maxRows := 1000; maxCols := 52 |}.

(** ** Address codec *)

(** The [while (col >= 0)] loop of [colToLetter]; [fuel] bounds the number of
    iterations ([col < fuel] is enough, see [colToLetter_loop_fuel]). *)
Fixpoint colToLetter_loop (fuel : nat) (col : Z) (letter : string) : string :=
  match fuel with
  | O => letter
  | S fuel' =>
      if 0 <=? col then
        colToLetter_loop fuel' (col / 26 - 1)
          (String (fromCharCode (65 + Z.rem col 26)) letter)
      else letter
  end.

Definition colToLetter (col : Z) : string :=
  colToLetter_loop (S (Z.to_nat col)) col "".

(** The [for] loop of [letterToCol], from accumulator [col]; the script's
    binary64 arithmetic gives the same as long as the result is below
    2^53. *)
Fixpoint letterToCol_loop (col : Z) (letter : string) : Z :=
  match letter with
  | "" => col
  | String ch rest => letterToCol_loop (col * 26 + (charCode ch - 64)) rest
  end.

Definition letterToCol (letter : string) : Z := letterToCol_loop 0 letter - 1.

Definition getCellId (row col : Z) : string :=
  colToLetter col ++ intToString (row + 1).

(** The longest prefix of upper-case letters, and what follows it *)
Fixpoint spanUpper (s : string) : string * string :=
  match s with
  | "" => ("", "")
  | String c s' =>
      if isUpper c then let (a, b) := spanUpper s' in (String c a, b)
      else ("", s)
  end.

(** [cellId.match(/^([A-Z]+)(\d+)$/)]: the two groups, when the whole string
    is one or more upper-case letters followed by one or more digits.  The two
    classes are disjoint, so the greedy split is the only one. *)
Definition matchCellId (cellId : string) : option (string * string) :=
  let (letters, digits) := spanUpper cellId in
  match letters, digits with
  | "", _ => None
  | _, "" => None
  | _, _ => if allDigits digits then Some (letters, digits) else None
  end.

Record CellPos := { col : Z; row : Z }.

Definition parseCellId (cellId : string) : option CellPos :=
  match matchCellId cellId with
  | None => None
  | Some (letters, digits) =>
      Some {| col := letterToCol letters; row := parseInt digits - 1 |}
  end.

(** ** JavaScript numbers: IEEE 754 binary64

    Arithmetic is the kernel's ([PrimFloat]); the conversions between
    numbers and decimal text that ECMAScript specifies ([parseFloat],
    [Number::toString], [Number.prototype.toFixed], [StringToNumber]) are
    computed here with exact integer arithmetic and one final rounding. *)

(** The Number value of an integer (round to nearest, ties to even) *)
Definition floatOfZ (n : Z) : float :=
  SF2Prim (binary_normalize prec emax n 0 false).

(** The Number value of [m * 10^e] for [0 <= m < 10^nd]: exact quotient to
    66 bits or more, the remainder kept as a rounding location. *)
Definition decimalToFloat (m nd e : Z) : float :=
  if m <=? 0 then PrimFloat.zero
  else if 310 <? e then PrimFloat.infinity
  else if nd + e <? -330 then PrimFloat.zero
  else if 0 <=? e then floatOfZ (m * 10 ^ e)
  else
    let den := 10 ^ (- e) in
    let s := Z.max 0 (66 + Z.log2 den - Z.log2 m) in
    let (q, r) := Z.div_eucl (Z.shiftl m s) den in
    SF2Prim (binary_round_aux prec emax false q (- s) (new_location den r)).

Definition strLength (s : string) : Z := Z.of_nat (String.length s).

Fixpoint spanDigits (s : string) : string * string :=
  match s with
  | "" => ("", "")
  | String c s' =>
      if isDigit c then let (a, b) := spanDigits s' in (String c a, b)
      else ("", s)
  end.

Definition isEmpty (s : string) : bool :=
  match s with "" => true | _ => false end.

(** The exponent part [[eE][+-]?\d+] at the head of [s], when there is one:
    its value and what follows it. *)
Definition scanExponent (s : string) : option (Z * string) :=
  match s with
  | String c r =>
      if (charCode c =? 101) || (charCode c =? 69) then
        let '(sgn, r') :=
          match r with
          | String "+" r' => (1, r')
          | String "-" r' => (-1, r')
          | _ => (1, r)
          end in
        let (ed, r'') := spanDigits r' in
        if isEmpty ed then None else Some (sgn * parseInt ed, r'')
      else None
  | "" => None
  end.

(** The longest prefix of [s] that is an unsigned decimal literal
    (digits, optional fraction, optional exponent): integer digits,
    fraction digits, exponent, and the rest of [s]. *)
Definition scanDecimal (s : string) : option (string * string * Z * string) :=
  let (ip, r1) := spanDigits s in
  let '(fp, r2) :=
    match r1 with
    | String "." r =>
        let (fp, r2) := spanDigits r in
        if isEmpty ip && isEmpty fp then ("", r1) else (fp, r2)
    | _ => ("", r1)
    end in
  if isEmpty ip && isEmpty fp then None
  else
    match scanExponent r2 with
    | Some (ex, r3) => Some (ip, fp, ex, r3)
    | None => Some (ip, fp, 0, r2)
    end.

Definition decimalValue (ip fp : string) (ex : Z) : float :=
  decimalToFloat (parseInt (ip ++ fp)) (strLength (ip ++ fp)) (ex - strLength fp).

(** White space of the ASCII range: TAB, LF, VT, FF, CR, SP *)
Definition isWhiteSpace (c : ascii) : bool :=
  ((9 <=? charCode c) && (charCode c <=? 13)) || (charCode c =? 32).

Fixpoint trimStart (s : string) : string :=
  match s with
  | "" => ""
  | String c s' => if isWhiteSpace c then trimStart s' else s
  end.

Fixpoint startsWith (pre s : string) : bool :=
  match pre, s with
  | "", _ => true
  | String a pre', String b s' => Ascii.eqb a b && startsWith pre' s'
  | _, "" => false
  end.

Fixpoint dropChars (n : nat) (s : string) : string :=
  match n, s with
  | O, _ => s
  | S n', String _ s' => dropChars n' s'
  | S _, "" => ""
  end.

Fixpoint takeChars (n : nat) (s : string) : string :=
  match n, s with
  | O, _ => ""
  | S n', String c s' => String c (takeChars n' s')
  | S _, "" => ""
  end.

Definition splitSign (s : string) : bool * string :=
  match s with
  | String "-" u => (true, u)
  | String "+" u => (false, u)
  | _ => (false, s)
  end.

Definition withSign (neg : bool) (x : float) : float :=
  if neg then PrimFloat.opp x else x.

(** [parseFloat(s)] for a string [s] *)
Definition parseFloat (s : string) : float :=
  let (neg, u) := splitSign (trimStart s) in
  if startsWith "Infinity" u then withSign neg PrimFloat.infinity
  else
    match scanDecimal u with
    | Some (ip, fp, ex, _) => withSign neg (decimalValue ip fp ex)
    | None => PrimFloat.nan
    end.

Fixpoint zeros (n : nat) : string :=
  match n with O => "" | S n' => String "0" (zeros n') end.

(** Is [num / den >= 10^k] ?  ([den > 0]) *)
Definition geqPow10 (num den k : Z) : bool :=
  if 0 <=? k then den * 10 ^ k <=? num else den <=? num * 10 ^ (- k).

Fixpoint firstPow10Above (fuel : nat) (num den n : Z) : Z :=
  match fuel with
  | O => n
  | S fuel' => if geqPow10 num den n then firstPow10Above fuel' num den (n + 1) else n
  end.

(** The decimal exponent [n] of [num / den]: [10^(n-1) <= num/den < 10^n];
    [b] is the binary exponent, [2^b <= num/den < 2^(b+1)]. *)
Definition decimalExponent (num den b : Z) : Z :=
  firstPow10Above 6 num den (b * 30103 / 100000 - 1).

(** The shortest digit string that reads back as [x = num / den]: searches
    [k = 1, 2, ...] digits, returns [(s, n)] with the decimal [s * 10^(n-k)]
    and [k] the number of digits of [s]. *)
Fixpoint shortestDigits (fuel : nat) (x : float) (num den n k : Z) : Z * Z :=
  let N := num * 10 ^ Z.max (k - n) 0 in
  let D := den * 10 ^ Z.max (n - k) 0 in
  let lo := N / D in
  let hi := lo + 1 in
  let okLo := PrimFloat.eqb (decimalToFloat lo (k + 1) (n - k)) x in
  let okHi := PrimFloat.eqb (decimalToFloat hi (k + 1) (n - k)) x in
  let pick (s : Z) := if s =? 10 ^ k then (10 ^ (k - 1), n + 1) else (s, n) in
  match fuel with
  | O => pick lo
  | S fuel' =>
      if okLo && okHi then
        match 2 * (N mod D) ?= D with
        | Lt => pick lo
        | Gt => pick hi
        | Eq => if Z.even lo then pick lo else pick hi
        end
      else if okLo then pick lo
      else if okHi then pick hi
      else shortestDigits fuel' x num den n (k + 1)
  end.

(** [Number::toString] for a positive finite number [m * 2^e] *)
Definition positiveToString (m : positive) (e : Z) : string :=
  let num := Zpos m * 2 ^ Z.max e 0 in
  let den := 2 ^ Z.max (- e) 0 in
  let n0 := decimalExponent num den (Z.log2 (Zpos m) + e) in
  let x := SF2Prim (S754_finite false m e) in
  let (s, n) := shortestDigits 17 x num den n0 1 in
  let digits := intToString s in
  let k := strLength digits in
  if (k <=? n) && (n <=? 21) then digits ++ zeros (Z.to_nat (n - k))
  else if (0 <? n) && (n <=? 21) then
    takeChars (Z.to_nat n) digits ++ "." ++ dropChars (Z.to_nat n) digits
  else if (-6 <? n) && (n <=? 0) then "0." ++ zeros (Z.to_nat (- n)) ++ digits
  else
    let ex := (if n - 1 <? 0 then "-" else "+") ++ intToString (Z.abs (n - 1)) in
    if k =? 1 then digits ++ "e" ++ ex
    else takeChars 1 digits ++ "." ++ dropChars 1 digits ++ "e" ++ ex.

(** [String(x)] for a number [x] *)
Definition numberToString (x : float) : string :=
  match Prim2SF x with
  | S754_nan => "NaN"
  | S754_zero _ => "0"
  | S754_infinity false => "Infinity"
  | S754_infinity true => "-Infinity"
  | S754_finite s m e => (if s then "-" else "") ++ positiveToString m e
  end.

(** The digits of [n / 10^f] with exactly [f] fraction digits *)
Definition fixedDigits (n : Z) (f : nat) : string :=
  let m := intToString n in
  match f with
  | O => m
  | S _ =>
      let k := String.length m in
      let m' := if (k <=? f)%nat then zeros (f + 1 - k) ++ m else m in
      let k' := String.length m' in
      takeChars (k' - f) m' ++ "." ++ dropChars (k' - f) m'
  end.

(** [x.toFixed(f)]: the integer [n] with [n / 10^f] nearest to [|x|] (the
    larger one on a tie), written with [f] fraction digits. *)
Definition toFixed (x : float) (f : nat) : string :=
  match Prim2SF x with
  | S754_nan => "NaN"
  | S754_zero _ => fixedDigits 0 f
  | S754_infinity _ => numberToString x
  | S754_finite s m e =>
      let num := Zpos m * 2 ^ Z.max e 0 in
      let den := 2 ^ Z.max (- e) 0 in
      if den * 10 ^ 21 <=? num then numberToString x
      else
        let n := (2 * num * 10 ^ Z.of_nat f + den) / (2 * den) in
        (if s then "-" else "") ++ fixedDigits n f
  end.

Fixpoint reverse (s : string) : string :=
  match s with
  | "" => ""
  | String c s' => reverse s' ++ String c ""
  end.

Definition trim (s : string) : string :=
  reverse (trimStart (reverse (trimStart s))).

(** Value of a digit in radix [radix], when it is one *)
Definition digitValue (radix : Z) (c : ascii) : option Z :=
  let n := charCode c in
  let v := if isDigit c then n - 48
           else if (97 <=? n) && (n <=? 102) then n - 87
           else if (65 <=? n) && (n <=? 70) then n - 55
           else radix in
  if v <? radix then Some v else None.

Fixpoint radixValue (radix acc : Z) (s : string) : option Z :=
  match s with
  | "" => Some acc
  | String c s' =>
      match digitValue radix c with
      | Some v => radixValue radix (acc * radix + v) s'
      | None => None
      end
  end.

Definition nonDecimalRadix (s : string) : option (Z * string) :=
  match s with
  | String "0" (String c r) =>
      let n := charCode c in
      if (n =? 120) || (n =? 88) then Some (16, r)
      else if (n =? 111) || (n =? 79) then Some (8, r)
      else if (n =? 98) || (n =? 66) then Some (2, r)
      else None
  | _ => None
  end.

(** [StringToNumber(s)]: the whole string, white space trimmed, must be a
    numeric literal; the empty string is 0. *)
Definition stringToNumber (s : string) : float :=
  let t := trim s in
  if isEmpty t then PrimFloat.zero
  else
    match nonDecimalRadix t with
    | Some (radix, ds) =>
        if isEmpty ds then PrimFloat.nan
        else match radixValue radix 0 ds with
             | Some n => floatOfZ n
             | None => PrimFloat.nan
             end
    | None =>
        let (neg, u) := splitSign t in
        if String.eqb u "Infinity" then withSign neg PrimFloat.infinity
        else
          match scanDecimal u with
          | Some (ip, fp, ex, "") => withSign neg (decimalValue ip fp ex)
          | _ => PrimFloat.nan
          end
    end.

(** ** JavaScript values *)

Inductive JsValue :=
| VUndefined
| VNull
| VBool (b : bool)
| VNum (x : float)
| VStr (s : string).

(** [String(v)] *)
Definition toString (v : JsValue) : string :=
  match v with
  | VUndefined => "undefined"
  | VNull => "null"
  | VBool true => "true"
  | VBool false => "false"
  | VNum x => numberToString x
  | VStr s => s
  end.

(** [Number(v)] *)
Definition toNumber (v : JsValue) : float :=
  match v with
  | VUndefined => PrimFloat.nan
  | VNull => PrimFloat.zero
  | VBool true => PrimFloat.one
  | VBool false => PrimFloat.zero
  | VNum x => x
  | VStr s => stringToNumber s
  end.

(** The global [isNaN(v)] *)
Definition isNaN (v : JsValue) : bool := PrimFloat.is_nan (toNumber v).

(** The global [parseFloat(v)]: its argument is first converted to a string *)
Definition parseFloatOf (v : JsValue) : float := parseFloat (toString v).

Definition isNegZero (x : float) : bool :=
  match Prim2SF x with S754_zero true => true | _ => false end.

Definition isPosZero (x : float) : bool :=
  match Prim2SF x with S754_zero false => true | _ => false end.

(** [Math.min(...values)] *)
Fixpoint Math_min_from (lowest : float) (values : list float) : float :=
  match values with
  | [] => lowest
  | number :: rest =>
      if PrimFloat.is_nan number then PrimFloat.nan
      else if isNegZero number && isPosZero lowest then Math_min_from number rest
      else if PrimFloat.ltb number lowest then Math_min_from number rest
      else Math_min_from lowest rest
  end.

Definition Math_min (values : list float) : float :=
  Math_min_from PrimFloat.infinity values.

(** [Math.max(...values)] *)
Fixpoint Math_max_from (highest : float) (values : list float) : float :=
  match values with
  | [] => highest
  | number :: rest =>
      if PrimFloat.is_nan number then PrimFloat.nan
      else if isPosZero number && isNegZero highest then Math_max_from number rest
      else if PrimFloat.ltb highest number then Math_max_from number rest
      else Math_max_from highest rest
  end.

Definition Math_max (values : list float) : float :=
  Math_max_from PrimFloat.neg_infinity values.

(** ** Host functions

    What the script asks of the JavaScript engine and cannot be read off its
    own text: the evaluation of the substituted formula text as code, and the
    locale rendering of numbers.  Results of the evaluation are primitive
    values; a result that is an object is outside the model. *)
Record Host := {
  (** [Function('"use strict"; return (' + expr + ')')()]: the value
      returned, or [None] when compiling or running the text throws *)
  evalExpr : string -> option JsValue;
  (** [num.toLocaleString('sv-SE', { minimumFractionDigits: 2,
      maximumFractionDigits: 2 })] *)
  toLocaleNumber : float -> string;
  (** [num.toLocaleString('sv-SE', { style: 'currency', currency: 'SEK' })] *)
  toLocaleCurrency : float -> string
}.

(** ** Cell store *)

(** A cell record [{ value, formula, format, displayValue }]; [format] holds
    [format.type] when the format object has one, [displayValue] is
    [undefined] until first computed. *)
Record Cell := {
  value : JsValue;
  formula : string;
  format : option string;
  displayValue : JsValue
}.

(** [state.data]: cell label to record, in insertion order *)
Definition CellStore := list (string * Cell).

(** [data[cellId]] *)
Fixpoint lookup (cellId : string) (data : CellStore) : option Cell :=
  match data with
  | [] => None
  | (k, cell) :: rest => if String.eqb k cellId then Some cell else lookup cellId rest
  end.

(** [data[cellId] = cell]: an existing key keeps its place, a new key goes
    last. *)
Fixpoint assign (cellId : string) (cell : Cell) (data : CellStore) : CellStore :=
  match data with
  | [] => [(cellId, cell)]
  | (k, old) :: rest =>
      if String.eqb k cellId then (k, cell) :: rest
      else (k, old) :: assign cellId cell rest
  end.

(** [delete data[cellId]] *)
Fixpoint remove (cellId : string) (data : CellStore) : CellStore :=
  match data with
  | [] => []
  | (k, old) :: rest =>
      if String.eqb k cellId then remove cellId rest
      else (k, old) :: remove cellId rest
  end.

(** [Object.keys(data)] *)
Definition keys (data : CellStore) : list string := map fst data.

(** The record literal [{ value: '', formula: '', format: {} }] *)
Definition emptyCell : Cell :=
  {| value := VStr ""; formula := ""; format := None; displayValue := VUndefined |}.

Definition setFormula (f : string) (cell : Cell) : Cell :=
  {| value := value cell; formula := f; format := format cell;
     displayValue := displayValue cell |}.

Definition setValue (v : JsValue) (cell : Cell) : Cell :=
  {| value := v; formula := formula cell; format := format cell;
     displayValue := displayValue cell |}.

Definition setFormat (ty : option string) (cell : Cell) : Cell :=
  {| value := value cell; formula := formula cell; format := ty;
     displayValue := displayValue cell |}.

Definition setDisplayValue (dv : JsValue) (cell : Cell) : Cell :=
  {| value := value cell; formula := formula cell; format := format cell;
     displayValue := dv |}.

(** ** Application state

    The fields of [state] the cell model uses, and [cellText], the log of
    the texts written into grid cells ([$(td).text(...)]), oldest first.
    Selection ranges, clipboard, theme, title and persistence are left out. *)
Record State := {
  isEditing : bool;
  rows : Z;
  cols : Z;
  data : CellStore;
  (** [null], or the label of the selected cell *)
  selectedCell : option string;
  cellText : list (string * JsValue)
}.

Definition initialState : State :=
  {| isEditing := false; rows := defaultRows CONFIG; cols := defaultCols CONFIG;
     data := []; selectedCell := None; cellText := [] |}.

Definition withData (d : CellStore) (st : State) : State :=
  {| isEditing := isEditing st; rows := rows st; cols := cols st; data := d;
     selectedCell := selectedCell st; cellText := cellText st |}.

Definition withEditing (b : bool) (st : State) : State :=
  {| isEditing := b; rows := rows st; cols := cols st; data := data st;
     selectedCell := selectedCell st; cellText := cellText st |}.

Definition withRows (n : Z) (st : State) : State :=
  {| isEditing := isEditing st; rows := n; cols := cols st; data := data st;
     selectedCell := selectedCell st; cellText := cellText st |}.

Definition withCols (n : Z) (st : State) : State :=
  {| isEditing := isEditing st; rows := rows st; cols := n; data := data st;
     selectedCell := selectedCell st; cellText := cellText st |}.

Definition withSelected (sel : option string) (st : State) : State :=
  {| isEditing := isEditing st; rows := rows st; cols := cols st; data := data st;
     selectedCell := sel; cellText := cellText st |}.

(** [$(`td[data-cell="${cellId}"]`).text(v)] *)
Definition writeText (cellId : string) (v : JsValue) (st : State) : State :=
  {| isEditing := isEditing st; rows := rows st; cols := cols st; data := data st;
     selectedCell := selectedCell st; cellText := (cellText st ++ [(cellId, v)])%list |}.

(** ** Range aggregator *)

(** The values of the loop variable of [for (i = lo; i <= hi; i++)], for
    bounds below 2^53, where the script's [i++] is exact *)
Definition loopRange (lo hi : Z) : list Z :=
  map (fun i => lo + Z.of_nat i) (seq 0 (Z.to_nat (hi - lo + 1))).

Definition getRangeValues (data : CellStore) (start end_ : string) : list float :=
  match parseCellId start, parseCellId end_ with
  | Some startPos, Some endPos =>
      fold_left (fun values r =>
        fold_left (fun values c =>
          let cellId := getCellId r c in
          match lookup cellId data with
          | Some cellData =>
              if negb (PrimFloat.is_nan (parseFloatOf (value cellData)))
              then (values ++ [parseFloatOf (value cellData)])%list
              else values
          | None => values
          end)
          (loopRange (Z.min (col startPos) (col endPos))
                     (Z.max (col startPos) (col endPos)))
          values)
        (loopRange (Z.min (row startPos) (row endPos))
                   (Z.max (row startPos) (row endPos)))
        []
  | _, _ => []
  end.

(** [values.reduce((a, b) => a + b, 0)] *)
Definition sumValues (values : list float) : float :=
  fold_left PrimFloat.add values PrimFloat.zero.

(** [values.length] *)
Definition lengthOf (values : list float) : Z := Z.of_nat (List.length values).

Definition sumRange (data : CellStore) (start end_ : string) : float :=
  sumValues (getRangeValues data start end_).

Definition avgRange (data : CellStore) (start end_ : string) : float :=
  let values := getRangeValues data start end_ in
  if lengthOf values =? 0 then PrimFloat.zero
  else PrimFloat.div (sumValues values) (floatOfZ (lengthOf values)).

Definition minRange (data : CellStore) (start end_ : string) : float :=
  let values := getRangeValues data start end_ in
  if lengthOf values =? 0 then PrimFloat.zero else Math_min values.

Definition maxRange (data : CellStore) (start end_ : string) : float :=
  let values := getRangeValues data start end_ in
  if lengthOf values =? 0 then PrimFloat.zero else Math_max values.

Definition countRange (data : CellStore) (start end_ : string) : Z :=
  lengthOf (getRangeValues data start end_).

(** ** Formula evaluator *)

(** [c.toUpperCase()] on ASCII *)
Definition upperChar (c : ascii) : ascii :=
  if (97 <=? charCode c) && (charCode c <=? 122) then fromCharCode (charCode c - 32)
  else c.

Fixpoint toUpperCase (s : string) : string :=
  match s with
  | "" => ""
  | String c s' => String (upperChar c) (toUpperCase s')
  end.

(** [[A-Z]+\d+] at the head of [s]: the letters, the digits and the rest *)
Definition matchRef (s : string) : option (string * string * string) :=
  let (letters, r1) := spanUpper s in
  let (digits, r2) := spanDigits r1 in
  if isEmpty letters || isEmpty digits then None else Some (letters, digits, r2).

(** [NAME\(([A-Z]+\d+):([A-Z]+\d+)\)] at the head of [s]: the two groups and
    the rest *)
Definition matchRangeCall (name s : string) : option (string * string * string) :=
  if startsWith (name ++ "(") s then
    match matchRef (dropChars (String.length name + 1) s) with
    | Some (l1, d1, String ":" r1) =>
        match matchRef r1 with
        | Some (l2, d2, String ")" r2) => Some (l1 ++ d1, l2 ++ d2, r2)
        | _ => None
        end
    | _ => None
    end
  else None.

(** The alternation [(?:N1|N2|...)\(...\)]: the first name that matches *)
Fixpoint matchRangeCalls (names : list string) (s : string)
  : option (string * string * string) :=
  match names with
  | [] => None
  | name :: more =>
      match matchRangeCall name s with
      | Some m => Some m
      | None => matchRangeCalls more s
      end
  end.

(** [s.replace(re, callback)] for a global pattern [re]: [matchAt] gives, for
    a match of [re] at the head of a string, the text the callback returns
    for it and what follows the match.  The string is scanned left to right
    and the scan resumes behind each match ([skip] counts the characters of
    a match that are still to be passed over). *)
Fixpoint replaceAll (matchAt : string -> option (string * string))
    (skip : nat) (s : string) : string :=
  match s with
  | "" => ""
  | String c s' =>
      match skip with
      | S k => replaceAll matchAt k s'
      | O =>
          match matchAt s with
          | Some (repl, rest) =>
              repl ++ replaceAll matchAt (String.length s' - String.length rest) s'
          | None => String c (replaceAll matchAt 0 s')
          end
      end
  end.

(** A range function of [evaluateFormula]: every [NAME(START:END)] becomes
    the text of [fn(START, END)]. *)
Definition replaceRangeCalls (names : list string) (fn : string -> string -> string)
    (expr : string) : string :=
  replaceAll (fun s =>
      match matchRangeCalls names s with
      | Some (start, end_, rest) => Some (fn start end_, rest)
      | None => None
      end) 0 expr.

(** The callback of the bare-reference replacement: the number put in place
    of the reference [col + row]. *)
Definition referenceValue (data : CellStore) (currentCell col row : string) : float :=
  let cellId := col ++ row in
  if String.eqb cellId currentCell then PrimFloat.zero
  else
    let val := match lookup cellId data with
               | Some cellData => value cellData
               | None => VNum PrimFloat.zero
               end in
    if PrimFloat.is_nan (parseFloatOf val) then PrimFloat.zero else parseFloatOf val.

Definition replaceReferences (data : CellStore) (currentCell expr : string) : string :=
  replaceAll (fun s =>
      match matchRef s with
      | Some (col, row, rest) =>
          Some (numberToString (referenceValue data currentCell col row), rest)
      | None => None
      end) 0 expr.

(** The text handed to the engine: upper-cased formula body, range calls
    then bare references replaced by numbers. *)
Definition substituteFormula (data : CellStore) (formula currentCell : string) : string :=
  let expr := toUpperCase (dropChars 1 formula) in
  let expr := replaceRangeCalls ["SUM"]
                (fun s e => numberToString (sumRange data s e)) expr in
  let expr := replaceRangeCalls ["AVG"; "AVERAGE"]
                (fun s e => numberToString (avgRange data s e)) expr in
  let expr := replaceRangeCalls ["MIN"]
                (fun s e => numberToString (minRange data s e)) expr in
  let expr := replaceRangeCalls ["MAX"]
                (fun s e => numberToString (maxRange data s e)) expr in
  let expr := replaceRangeCalls ["COUNT"]
                (fun s e => intToString (countRange data s e)) expr in
  replaceReferences data currentCell expr.

Definition ERROR : JsValue := VStr "#ERROR".

Definition evaluateFormula (h : Host) (data : CellStore) (formula currentCell : string)
  : JsValue :=
  match evalExpr h (substituteFormula data formula currentCell) with
  | Some result => if isNaN result then ERROR else result
  | None => ERROR
  end.

(** ** Value formatter *)

Definition formatValue (h : Host) (value : JsValue) (format : option string) : JsValue :=
  match format with
  | None => value
  | Some ty =>
      if isEmpty ty then value
      else
        let num := parseFloatOf value in
        if PrimFloat.is_nan num then value
        else if String.eqb ty "number" then VStr (toLocaleNumber h num)
        else if String.eqb ty "currency" then VStr (toLocaleCurrency h num)
        else if String.eqb ty "percent"
             then VStr (toFixed (PrimFloat.mul num (floatOfZ 100)) 1 ++ "%")
        else value
  end.

(** ** Recalculation engine *)

(** The body of the [forEach] of [recalculateAll] for one key *)
Definition recalculateCell (h : Host) (st : State) (cellId : string) : State :=
  match lookup cellId (data st) with
  | Some cellData =>
      if isEmpty (formula cellData) then st
      else
        let v := evaluateFormula h (data st) (formula cellData) cellId in
        let dv := formatValue h v (format cellData) in
        writeText cellId dv
          (withData (assign cellId (setDisplayValue dv (setValue v cellData)) (data st)) st)
  | None => st
  end.

(** The [forEach] over a list of keys *)
Definition pass (h : Host) (ks : list string) (st : State) : State :=
  fold_left (recalculateCell h) ks st.

Definition recalculateAll (h : Host) (st : State) : State :=
  pass h (keys (data st)) st.

(** ** Cell editing *)

Definition finishEditing (h : Host) (st : State) (cellId value : string) : State :=
  if negb (isEditing st) then st
  else
    let st := withEditing false st in
    let st := match lookup cellId (data st) with
              | Some _ => st
              | None => withData (assign cellId emptyCell (data st)) st
              end in
    let cell := match lookup cellId (data st) with
                | Some cell => cell
                | None => emptyCell
                end in
    let cell :=
      if startsWith "=" value then
        let cell := setFormula value cell in
        let v := evaluateFormula h (assign cellId cell (data st)) value cellId in
        setDisplayValue (formatValue h v (format cell)) (setValue v cell)
      else
        let cell := setValue (VStr value) (setFormula "" cell) in
        setDisplayValue (formatValue h (VStr value) (format cell)) cell in
    let st := withData (assign cellId cell (data st)) st in
    let st := writeText cellId (displayValue cell) st in
    recalculateAll h st.

(** The [Delete] / [Backspace] key on a grid cell *)
Definition clearCell (h : Host) (st : State) (cellId : string) : State :=
  match parseCellId cellId with
  | None => st
  | Some _ =>
      if isEditing st then st
      else recalculateAll h (writeText cellId (VStr "") (withData (remove cellId (data st)) st))
  end.

Definition applyFormat (h : Host) (st : State) (type : string) : State :=
  match selectedCell st with
  | None => st
  | Some sel =>
      if isEmpty sel then st
      else
        let cell := match lookup sel (data st) with
                    | Some cell => cell
                    | None => emptyCell
                    end in
        let cell := setFormat (Some type) cell in
        let cell := setDisplayValue (formatValue h (value cell) (format cell)) cell in
        writeText sel (displayValue cell) (withData (assign sel cell (data st)) st)
  end.

(** ** Grid dimensions: the four toolbar handlers *)

Definition addRow (st : State) : State :=
  withRows (Z.min (rows st + 1) (maxRows CONFIG)) st.

Definition addCol (st : State) : State :=
  withCols (Z.min (cols st + 1) (maxCols CONFIG)) st.

Definition deleteRow (st : State) : State :=
  if 1 <? rows st then withRows (rows st - 1) st else st.

Definition deleteCol (st : State) : State :=
  if 1 <? cols st then withCols (cols st - 1) st else st.

Inductive ResizeOp := AddRow | AddCol | DeleteRow | DeleteCol.

Definition resize (st : State) (op : ResizeOp) : State :=
  match op with
  | AddRow => addRow st
  | AddCol => addCol st
  | DeleteRow => deleteRow st
  | DeleteCol => deleteCol st
  end.

(** ** Loading a snapshot *)

(** A parsed snapshot [{ title, data, rows, cols }]; a field is [None] when
    the snapshot does not have it.  [rows] and [cols] are integers. *)
Record Snapshot := {
  snapTitle : option string;
  snapData : option CellStore;
  snapRows : option Z;
  snapCols : option Z
}.

(** [n || dflt] for an optional integer field: [undefined] and [0] are falsy *)
Definition orDefault (n : option Z) (dflt : Z) : Z :=
  match n with
  | Some v => if v =? 0 then dflt else v
  | None => dflt
  end.

Definition restore (snap : Snapshot) (st : State) : State :=
  let st := withData (match snapData snap with Some d => d | None => [] end) st in
  let st := withRows (orDefault (snapRows snap) (defaultRows CONFIG)) st in
  withCols (orDefault (snapCols snap) (defaultCols CONFIG)) st.

(** What [localStorage.getItem('numbers-sheet')] holds: nothing, text that
    [JSON.parse] rejects, or a snapshot. *)
Inductive SavedItem := NoItem | Unparsable | Parsed (snap : Snapshot).

Definition loadFromLocalStorage (saved : SavedItem) (st : State) : State :=
  match saved with
  | Parsed snap => restore snap st
  | NoItem | Unparsable => st
  end.

(** What [NorthFS.getFile(filePath)] gives: a rejection, no file ([null]),
    or a file with its [content] when it has one. *)
Inductive FileResult := Rejected | NoFile | File (content : option Snapshot).

Definition loadFromFilesystem (file : FileResult) (st : State) : State :=
  match file with
  | File (Some snap) => restore snap st
  | _ => st
  end.

(** ** A reference host

    [refHost] evaluates the arithmetic fragment of ECMAScript expressions
    that substituted formulas are made of: decimal literals, [Infinity],
    [NaN], the operators [+ - * /] (binary and unary) and parentheses, with
    binary64 arithmetic.  Text outside the fragment is reported as a fault.
    It gives the properties that hold for every host a concrete instance. *)

Inductive Token :=
| TNum (x : float)
| TPlus | TMinus | TStar | TSlash | TLParen | TRParen.

(** A character that may continue an identifier or a numeric literal *)
Definition isWordChar (c : ascii) : bool :=
  let n := charCode c in
  isDigit c || ((65 <=? n) && (n <=? 90)) || ((97 <=? n) && (n <=? 122))
  || (n =? 95) || (n =? 36).

Definition wordFollows (s : string) : bool :=
  match s with
  | String c _ => isWordChar c
  | "" => false
  end.

(** A decimal integer part may not have a leading zero in strict code *)
Definition legacyOctalLike (ip : string) : bool :=
  match ip with
  | String "0" (String _ _) => true
  | _ => false
  end.

(** The next token of [s] and what follows it; [None] at a character or a
    multi-character operator ([++], [--], [**], [//], [/*]) outside the
    fragment. *)
Definition nextToken (s : string) : option (Token * string) :=
  match s with
  | "" => None
  | String "(" r => Some (TLParen, r)
  | String ")" r => Some (TRParen, r)
  | String "+" r => if startsWith "+" r then None else Some (TPlus, r)
  | String "-" r => if startsWith "-" r then None else Some (TMinus, r)
  | String "*" r => if startsWith "*" r then None else Some (TStar, r)
  | String "/" r =>
      if startsWith "/" r || startsWith "*" r then None else Some (TSlash, r)
  | _ =>
      if startsWith "Infinity" s then
        let r := dropChars 8 s in
        if wordFollows r then None else Some (TNum PrimFloat.infinity, r)
      else if startsWith "NaN" s then
        let r := dropChars 3 s in
        if wordFollows r then None else Some (TNum PrimFloat.nan, r)
      else
        match scanDecimal s with
        | Some (ip, fp, ex, r) =>
            if legacyOctalLike ip || wordFollows r then None
            else Some (TNum (decimalValue ip fp ex), r)
        | None => None
        end
  end.

Fixpoint tokenize (fuel : nat) (s : string) : option (list Token) :=
  match fuel with
  | O => None
  | S fuel' =>
      let s := trimStart s in
      if isEmpty s then Some []
      else
        match nextToken s with
        | Some (t, r) =>
            match tokenize fuel' r with
            | Some ts => Some (t :: ts)
            | None => None
            end
        | None => None
        end
  end.

(** Recursive descent over the tokens: sums of products of unary
    expressions, left to right. *)
Fixpoint parseSum (fuel : nat) (ts : list Token) : option (float * list Token) :=
  match fuel with
  | O => None
  | S fuel' =>
      match parseProduct fuel' ts with
      | Some (x, rest) => sumRest fuel' x rest
      | None => None
      end
  end
with sumRest (fuel : nat) (acc : float) (ts : list Token) : option (float * list Token) :=
  match fuel with
  | O => None
  | S fuel' =>
      match ts with
      | TPlus :: r =>
          match parseProduct fuel' r with
          | Some (y, rest) => sumRest fuel' (PrimFloat.add acc y) rest
          | None => None
          end
      | TMinus :: r =>
          match parseProduct fuel' r with
          | Some (y, rest) => sumRest fuel' (PrimFloat.sub acc y) rest
          | None => None
          end
      | _ => Some (acc, ts)
      end
  end
with parseProduct (fuel : nat) (ts : list Token) : option (float * list Token) :=
  match fuel with
  | O => None
  | S fuel' =>
      match parseUnary fuel' ts with
      | Some (x, rest) => productRest fuel' x rest
      | None => None
      end
  end
with productRest (fuel : nat) (acc : float) (ts : list Token) : option (float * list Token) :=
  match fuel with
  | O => None
  | S fuel' =>
      match ts with
      | TStar :: r =>
          match parseUnary fuel' r with
          | Some (y, rest) => productRest fuel' (PrimFloat.mul acc y) rest
          | None => None
          end
      | TSlash :: r =>
          match parseUnary fuel' r with
          | Some (y, rest) => productRest fuel' (PrimFloat.div acc y) rest
          | None => None
          end
      | _ => Some (acc, ts)
      end
  end
with parseUnary (fuel : nat) (ts : list Token) : option (float * list Token) :=
  match fuel with
  | O => None
  | S fuel' =>
      match ts with
      | TNum x :: r => Some (x, r)
      | TPlus :: r => parseUnary fuel' r
      | TMinus :: r =>
          match parseUnary fuel' r with
          | Some (x, rest) => Some (PrimFloat.opp x, rest)
          | None => None
          end
      | TLParen :: r =>
          match parseSum fuel' r with
          | Some (x, TRParen :: rest) => Some (x, rest)
          | _ => None
          end
      | _ => None
      end
  end.

(** The value of [return (expr)] when [(expr)] lies in the fragment *)
Definition evalArith (expr : string) : option JsValue :=
  let text := "(" ++ expr ++ ")" in
  match tokenize (S (String.length text)) text with
  | Some ts =>
      match parseSum (4 * List.length ts + 8) ts with
      | Some (x, []) => Some (VNum x)
      | _ => None
      end
  | None => None
  end.

(** Digits in groups of three, from the right *)
Fixpoint groupDigits (fuel : nat) (digits : string) : string :=
  match fuel with
  | O => digits
  | S fuel' =>
      let n := String.length digits in
      if (n <=? 3)%nat then digits
      else groupDigits fuel' (takeChars (n - 3) digits) ++ " " ++ dropChars (n - 3) digits
  end.

(** An ASCII rendering after the sv-SE pattern: two fraction digits, decimal
    comma, groups of three.  (The engine writes the group separator and the
    minus sign with characters outside ASCII.) *)
Definition asciiLocaleNumber (x : float) : string :=
  let (neg, t) := splitSign (toFixed x 2) in
  let (ip, r) := spanDigits t in
  if isEmpty ip then toFixed x 2
  else (if neg then "-" else "") ++ groupDigits (String.length ip) ip
       ++ "," ++ dropChars 1 r.

Definition refHost : Host :=
  {| evalExpr := evalArith;
     toLocaleNumber := asciiLocaleNumber;
     toLocaleCurrency := fun x => asciiLocaleNumber x ++ " kr" |}.

(** ** Definitions used to state the properties *)

(** The record of [cellId] after the assignments of [finishEditing], before
    the recalculation pass. *)
Definition committedCell (h : Host) (d : CellStore) (cellId input : string) : Cell :=
  let old := match lookup cellId d with Some c => c | None => emptyCell end in
  if startsWith "=" input then
    let cell := setFormula input old in
    let v := evaluateFormula h (assign cellId cell d) input cellId in
    setDisplayValue (formatValue h v (format cell)) (setValue v cell)
  else
    let cell := setValue (VStr input) (setFormula "" old) in
    setDisplayValue (formatValue h (VStr input) (format cell)) cell.

(** The state [finishEditing] hands to [recalculateAll] *)
Definition committedState (h : Host) (st : State) (cellId input : string) : State :=
  let cell := committedCell h (data st) cellId input in
  writeText cellId (displayValue cell)
    (withData (assign cellId cell (data st)) (withEditing false st)).

(** The state the Delete / Backspace handler hands to [recalculateAll] *)
Definition clearedState (st : State) (cellId : string) : State :=
  writeText cellId (VStr "") (withData (remove cellId (data st)) st).

(** Does the store hold a formula under this key? *)
Definition hasFormula (d : CellStore) (k : string) : bool :=
  match lookup k d with
  | Some cell => negb (isEmpty (formula cell))
  | None => false
  end.

(** The keys of the formula cells, in insertion order *)
Definition formulaKeys (d : CellStore) : list string :=
  filter (hasFormula d) (keys d).

(** An editing session: each entry is a cell label and the text committed
    into it ([startEditing] then [finishEditing]). *)
Definition edit (h : Host) (st : State) (e : string * string) : State :=
  finishEditing h (withEditing true st) (fst e) (snd e).

Definition edits (h : Host) (es : list (string * string)) : State :=
  fold_left (edit h) es initialState.

(** Row and column counts within the configured bounds *)
Definition inBounds (st : State) : Prop :=
  1 <= rows st <= maxRows CONFIG /\ 1 <= cols st <= maxCols CONFIG.

(** The labels of the rectangular span between two corners, row by row,
    the corners taken in either order. *)
Definition spanCells (a b : CellPos) : list string :=
  flat_map (fun r =>
      map (fun c => getCellId r c)
          (loopRange (Z.min (col a) (col b)) (Z.max (col a) (col b))))
    (loopRange (Z.min (row a) (row b)) (Z.max (row a) (row b))).

(** The numeric value of the cell under a label: none when the store has no
    such cell or when its value does not parse as a number. *)
Definition numericValue (d : CellStore) (cellId : string) : list float :=
  match lookup cellId d with
  | Some cell =>
      if PrimFloat.is_nan (parseFloatOf (value cell)) then []
      else [parseFloatOf (value cell)]
  | None => []
  end.

(** The numeric values found under a list of labels, in order *)
Definition numericValues (d : CellStore) (cellIds : list string) : list float :=
  flat_map (numericValue d) cellIds.

(** No element is NaN *)
Definition noNaN (values : list float) : Prop :=
  Forall (fun x => PrimFloat.is_nan x = false) values.

(** No character of [s] is an upper-case letter *)
Fixpoint noUpper (s : string) : bool :=
  match s with
  | "" => true
  | String c s' => negb (isUpper c) && noUpper s'
  end.



(** The script computes row and column indices in binary64.  Reading a
    numeral, writing it back and stepping through indices are exact as
    long as the numeral stays below 2^53: for an index (0-based) that is
    [i + 1 < 2^53].  Properties about labels and spans carry this bound. *)
Definition exactIndex (i : Z) : Prop := i + 1 < 2 ^ 53.

Definition exactPos (p : CellPos) : Prop :=
  exactIndex (row p) /\ exactIndex (col p).

(** The last character of [s] is an upper-case letter *)
Fixpoint endsUpper (s : string) : bool :=
  match s with
  | "" => false
  | String c "" => isUpper c
  | String _ s' => endsUpper s'
  end.


(** ** Further parts of the script

    Truthiness and the texts shown in a cell and in its editor, selection
    and the status bar, the keys handled on a grid cell and in the cell
    editor, escaping for markup and for CSV, and saving: the snapshot
    written to local storage and the file written to the virtual file
    system ([shared/filesystem.js]).  What the cell model's [State] does
    not hold ([state.selectedRange], [state.currentFilePath], the sheet
    title, the file store) is passed explicitly. *)

(** [Boolean(v)] *)
Definition truthy (v : JsValue) : bool :=
  match v with
  | VUndefined | VNull => false
  | VBool b => b
  | VNum x => negb (PrimFloat.is_zero x || PrimFloat.is_nan x)
  | VStr s => negb (isEmpty s)
  end.

(** [a || b] *)
Definition orElse (a b : JsValue) : JsValue := if truthy a then a else b.

(** [cellData.displayValue || cellData.value || ''] for
    [cellData = state.data[cellId] || {}]: the text [generateSpreadsheet]
    puts into a grid cell and [cancelEditing] puts back. *)
Definition shownValue (cellData : option Cell) : JsValue :=
  match cellData with
  | Some c => orElse (orElse (displayValue c) (value c)) (VStr "")
  | None => VStr ""
  end.

(** [cellData.formula || cellData.value || ''] for
    [cellData = state.data[cellId] || {}]: the text of the formula bar and
    the initial text of the cell editor. *)
Definition editedValue (cellData : option Cell) : JsValue :=
  match cellData with
  | Some c => orElse (orElse (VStr (formula c)) (value c)) (VStr "")
  | None => VStr ""
  end.

(** *** Escaping *)

(** The double-quote character (code 34) *)
Definition quoteChar : ascii := Ascii false true false false false true false false.

Definition quote : string := String quoteChar "".

(** [s.replace(/c/g, by)] for a pattern of one character [c] *)
Fixpoint replaceChar (c : ascii) (by_ : string) (s : string) : string :=
  match s with
  | "" => ""
  | String x s' => (if Ascii.eqb x c then by_ else String x "") ++ replaceChar c by_ s'
  end.

Definition escapeHtml (str : JsValue) : string :=
  replaceChar quoteChar "&quot;"
    (replaceChar ">" "&gt;"
      (replaceChar "<" "&lt;"
        (replaceChar "&" "&amp;" (toString str)))).

(** The markup [startEditing] puts into the cell *)
Definition editorMarkup (d : CellStore) (cellId : string) : string :=
  "<input type=" ++ quote ++ "text" ++ quote ++ " value=" ++ quote
    ++ escapeHtml (editedValue (lookup cellId d)) ++ quote ++ " />".

(** [parts.join(sep)] *)
Fixpoint join (sep : string) (parts : list string) : string :=
  match parts with
  | [] => ""
  | [part] => part
  | part :: rest => part ++ sep ++ join sep rest
  end.

(** One field of the CSV export, the body of its inner loop: the cell's
    [value], or the empty text when the cell is absent or its value is
    falsy, in double quotes with every double quote inside doubled. *)
Definition csvField (cellData : option Cell) : string :=
  let value := match cellData with
               | Some c => orElse (value c) (VStr "")
               | None => VStr ""
               end in
  quote ++ replaceChar quoteChar (quote ++ quote) (toString value) ++ quote.

(** *** Selection and the status bar *)

Definition selectCell (st : State) (cellId : string) : State :=
  withSelected (Some cellId) st.

(** The [values] array of [updateStatusCalculations]: the numeric value of
    the selected cell, then those of the cells of [state.selectedRange]. *)
Definition statusValues (d : CellStore) (selected : option string)
    (selectedRange : list string) : list float :=
  let values :=
    match selected with
    | Some sel =>
        if isEmpty sel then []
        else match lookup sel d with
             | Some cellData =>
                 if negb (PrimFloat.is_nan (parseFloatOf (value cellData)))
                 then [parseFloatOf (value cellData)]
                 else []
             | None => []
             end
    | None => []
    end in
  fold_left (fun values cellId =>
      match lookup cellId d with
      | Some cellData =>
          if negb (PrimFloat.is_nan (parseFloatOf (value cellData)))
          then (values ++ [parseFloatOf (value cellData)])%list
          else values
      | None => values
      end)
    selectedRange values.

(** The three texts of the status bar: sum, average and count *)
Definition updateStatusCalculations (d : CellStore) (selected : option string)
    (selectedRange : list string) : string * string * Z :=
  let values := statusValues d selected selectedRange in
  let sum := sumValues values in
  let avg := if lengthOf values =? 0 then PrimFloat.zero
             else PrimFloat.div sum (floatOfZ (lengthOf values)) in
  (toFixed sum 2, toFixed avg 2, lengthOf values).

(** *** Opening and leaving the cell editor *)

Definition startEditing (st : State) (cellId : string) : State :=
  if isEditing st then st else withEditing true st.

Definition cancelEditing (st : State) (cellId : string) : State :=
  let st := withEditing false st in
  writeText cellId (shownValue (lookup cellId (data st))) st.

(** [e.key]: the named keys the handlers test for, a key whose name is one
    character, any other key. *)
Inductive Key :=
| ArrowUp | ArrowDown | ArrowLeft | ArrowRight
| Enter | Tab | Escape | Delete | Backspace
| Printable (c : ascii)
| OtherKey.

(** The [keydown] handler of the grid cells *)
Definition onCellKeydown (h : Host) (st : State) (cellId : string) (key : Key)
    (ctrlKey metaKey : bool) : State :=
  match parseCellId cellId with
  | None => st
  | Some pos =>
      if isEditing st then st
      else
        match key with
        | ArrowUp =>
            if 0 <? row pos then selectCell st (getCellId (row pos - 1) (col pos)) else st
        | ArrowDown =>
            if row pos <? rows st - 1
            then selectCell st (getCellId (row pos + 1) (col pos)) else st
        | ArrowLeft =>
            if 0 <? col pos then selectCell st (getCellId (row pos) (col pos - 1)) else st
        | ArrowRight =>
            if col pos <? cols st - 1
            then selectCell st (getCellId (row pos) (col pos + 1)) else st
        | Enter => startEditing st cellId
        | Delete | Backspace =>
            recalculateAll h
              (writeText cellId (VStr "") (withData (remove cellId (data st)) st))
        | Printable _ =>
            if negb ctrlKey && negb metaKey then
              let st := match lookup cellId (data st) with
                        | Some _ => st
                        | None => withData (assign cellId emptyCell (data st)) st
                        end in
              let cell := match lookup cellId (data st) with
                          | Some cell => cell
                          | None => emptyCell
                          end in
              let st := withData (assign cellId (setValue (VStr "") cell) (data st)) st in
              startEditing st cellId
            else st
        | Tab | Escape | OtherKey => st
        end
  end.

(** The [keydown] handler of the cell editor; [val] is the editor's text. *)
Definition onEditorKeydown (h : Host) (st : State) (cellId : string) (key : Key)
    (val : string) : State :=
  match key with
  | Enter =>
      let st := finishEditing h st cellId val in
      match parseCellId cellId with
      | Some pos =>
          if row pos <? rows st - 1
          then selectCell st (getCellId (row pos + 1) (col pos)) else st
      | None => st
      end
  | Tab =>
      let st := finishEditing h st cellId val in
      match parseCellId cellId with
      | Some pos =>
          if col pos <? cols st - 1
          then selectCell st (getCellId (row pos) (col pos + 1)) else st
      | None => st
      end
  | Escape => cancelEditing st cellId
  | _ => st
  end.

(** *** Saving *)

(** What [JSON.parse] reads back from the [JSON.stringify] text of a
    primitive held in a property: a number that is not finite is written
    as [null], a finite one as its decimal text; an [undefined] property is
    left out and reads back as [undefined]. *)
Definition jsonValue (v : JsValue) : JsValue :=
  match v with
  | VNum x => if PrimFloat.is_finite x then VNum (stringToNumber (numberToString x))
              else VNull
  | _ => v
  end.

Definition jsonCell (cell : Cell) : Cell :=
  {| value := jsonValue (value cell); formula := formula cell;
     format := format cell; displayValue := jsonValue (displayValue cell) |}.

(** [saveToLocalStorage]: the stored item, as [JSON.parse] reads it back.
    [title] is the text of the title field. *)
Definition saveToLocalStorage (title : string) (st : State) : SavedItem :=
  Parsed {| snapTitle := Some title;
            snapData := Some (map (fun kc => (fst kc, jsonCell (snd kc))) (data st));
            snapRows := Some (rows st);
            snapCols := Some (cols st) |}.

(** [s.split(sep)] for a separator of one character *)
Fixpoint split (sep : ascii) (s : string) : list string :=
  match s with
  | "" => [""]
  | String c s' =>
      if Ascii.eqb c sep then "" :: split sep s'
      else match split sep s' with
           | part :: parts => String c part :: parts
           | [] => [String c ""]
           end
  end.

(** [s.endsWith(suffix)] for a suffix of one character *)
Fixpoint endsWithChar (c : ascii) (s : string) : bool :=
  match s with
  | "" => false
  | String x "" => Ascii.eqb x c
  | String _ s' => endsWithChar c s'
  end.

(** [c.toLowerCase()] on ASCII *)
Definition lowerChar (c : ascii) : ascii :=
  if (65 <=? charCode c) && (charCode c <=? 90) then fromCharCode (charCode c + 32)
  else c.

Fixpoint toLowerCase (s : string) : string :=
  match s with
  | "" => ""
  | String c s' => String (lowerChar c) (toLowerCase s')
  end.

(** [FILE_TYPES] of the file system *)
Inductive FileType := FOLDER | WORDS | NUMBERS | TEXT | UNKNOWN.

Definition getFileType (name : string) : FileType :=
  if isEmpty name || endsWithChar "/" name then FOLDER
  else
    let ext := toLowerCase (last (split "." name) "") in
    if String.eqb ext "words" then WORDS
    else if String.eqb ext "numbers" then NUMBERS
    else if String.eqb ext "txt" then TEXT
    else UNKNOWN.

(** A record of the file store, without its size and time stamps *)
Record FileEntry := {
  filePath : string;
  fileName : string;
  fileParent : string;
  fileType : FileType;
  fileContent : option Snapshot
}.

(** The object store of the file system, keyed by [path] *)
Definition FileStore := string -> option FileEntry.

(** [NorthFS.saveFile(name, parentPath, content)] *)
Definition saveFile (name parentPath : string) (content : Snapshot)
    (files : FileStore) : FileStore :=
  let path := if String.eqb parentPath "/" then "/" ++ name
              else parentPath ++ "/" ++ name in
  let file := {| filePath := path; fileName := name; fileParent := parentPath;
                 fileType := getFileType name; fileContent := Some content |} in
  fun p => if String.eqb p path then Some file else files p.

(** [NorthFS.getFile(path)] on a store that answers *)
Definition getFile (path : string) (files : FileStore) : FileResult :=
  match files path with
  | Some file => File (fileContent file)
  | None => NoFile
  end.

(** [saveToFilesystem] with [state.currentFilePath] and the title given;
    the [lastSaved] stamp of the content is left out. *)
Definition saveToFilesystem (currentFilePath : option string) (title : string)
    (st : State) (files : FileStore) : FileStore :=
  match currentFilePath with
  | None => files
  | Some path =>
      if isEmpty path then files
      else
        let content := {| snapTitle := Some title; snapData := Some (data st);
                          snapRows := Some (rows st); snapCols := Some (cols st) |} in
        let pathParts := split "/" path in
        let fileName := last pathParts "" in
        let pathParts := removelast pathParts in
        let parentPath := if isEmpty (join "/" pathParts) then "/"
                          else join "/" pathParts in
        saveFile fileName parentPath content files
  end.

(** *** Sessions *)

(** What a user does to the sheet: commit a text into a cell (open the
    editor, then Enter or blur), press Delete on a cell, select a cell and
    press a format button, press one of the four grid-size buttons. *)
Inductive Action :=
| Commit (cellId input : string)
| Clear (cellId : string)
| Format (cellId type : string)
| Resize (op : ResizeOp).

Definition act (h : Host) (st : State) (a : Action) : State :=
  match a with
  | Commit cellId input => finishEditing h (startEditing st cellId) cellId input
  | Clear cellId => onCellKeydown h st cellId Delete false false
  | Format cellId type => applyFormat h (selectCell st cellId) type
  | Resize op => resize st op
  end.

Definition session (h : Host) (actions : list Action) : State :=
  fold_left (act h) actions initialState.

(** *** Shapes of labels and stores, used to state the properties *)

(** A decimal numeral without a superfluous leading zero *)
Definition noLeadingZero (digits : string) : bool :=
  match digits with
  | String "0" (String _ _) => false
  | _ => true
  end.

(** Does [c] occur in [s]? *)
Fixpoint occurs (c : ascii) (s : string) : bool :=
  match s with
  | "" => false
  | String x s' => Ascii.eqb x c || occurs c s'
  end.

(** The label names a cell of the grid *)
Definition inGrid (st : State) (cellId : string) : Prop :=
  exists pos, parseCellId cellId = Some pos /\
              0 <= row pos < rows st /\ 0 <= col pos < cols st.

(** The record holds what the script computes for it: the display value is
    the formatted value, a cell without a formula holds a text, a formula
    starts with the equals sign and its value is not NaN. *)
Definition wellFormed (h : Host) (cell : Cell) : Prop :=
  displayValue cell = formatValue h (value cell) (format cell) /\
  (formula cell = "" -> exists s, value cell = VStr s) /\
  (formula cell <> "" -> startsWith "=" (formula cell) = true /\
                         (isNaN (value cell) = true -> value cell = ERROR)).

(** Every formula cell holds the value and the display value its formula
    gives on this very store. *)
Definition settled (h : Host) (d : CellStore) : Prop :=
  forall k cell, lookup k d = Some cell -> formula cell <> "" ->
    value cell = evaluateFormula h d (formula cell) k /\
    displayValue cell = formatValue h (value cell) (format cell).

(** Every record of the store is well formed *)
Definition allWellFormed (h : Host) (d : CellStore) : Prop :=
  forall k cell, lookup k d = Some cell -> wellFormed h cell.

(** The selection, when there is one, names a cell of the grid *)
Definition selectionInGrid (st : State) : Prop :=
  forall sel, selectedCell st = Some sel -> inGrid st sel.

(** What escaping writes for one character: its entity when it is one of
    the four special characters, the character itself otherwise. *)
Definition entity (c : ascii) : string :=
  if Ascii.eqb c "&" then "&amp;"
  else if Ascii.eqb c "<" then "&lt;"
  else if Ascii.eqb c ">" then "&gt;"
  else if Ascii.eqb c quoteChar then "&quot;"
  else String c "".

(** Every character replaced by its entity, in one sweep *)
Fixpoint escapeEach (s : string) : string :=
  match s with
  | "" => ""
  | String c s' => entity c ++ escapeEach s'
  end.

(** The text a CSV field is made from *)
Definition csvText (cellData : option Cell) : string :=
  match cellData with
  | Some c => if truthy (value c) then toString (value c) else ""
  | None => ""
  end.

(** The cells the status bar looks at: the selected one, then the range *)
Definition statusCells (selected : option string) (selectedRange : list string)
  : list string :=
  (match selected with
   | Some sel => if isEmpty sel then [] else [sel]
   | None => []
   end ++ selectedRange)%list.

(** How many times [c] occurs in [s] *)
Fixpoint countChar (c : ascii) (s : string) : nat :=
  match s with
  | "" => O
  | String x s' => ((if Ascii.eqb x c then 1 else 0) + countChar c s')%nat
  end.
(** ** Proof automation *)



(** ** Address codec: properties *)

Lemma charCode_fromCharCode (n : Z) : 0 <= n < 256 -> charCode (fromCharCode n) = n.
Proof.
  intros Hn. unfold charCode, fromCharCode.
  rewrite N_ascii_embedding by lia. lia.
Qed.

Lemma isDigit_fromCharCode (d : Z) : 0 <= d < 10 -> isDigit (fromCharCode (48 + d)) = true.
Proof.
  intros Hd. unfold isDigit. rewrite charCode_fromCharCode by lia.
  apply andb_true_intro; split; apply Z.leb_le; lia.
Qed.

Lemma isUpper_fromCharCode (d : Z) : 0 <= d < 26 -> isUpper (fromCharCode (65 + d)) = true.
Proof.
  intros Hd. unfold isUpper. rewrite charCode_fromCharCode by lia.
  apply andb_true_intro; split; apply Z.leb_le; lia.
Qed.

Lemma isUpper_not_isDigit (c : ascii) : isDigit c = true -> isUpper c = false.
Proof.
  unfold isDigit, isUpper. intros H. apply andb_prop in H as [_ H].
  apply Z.leb_le in H. apply andb_false_intro1. apply Z.leb_gt. lia.
Qed.

Lemma allDigits_app (s t : string) :
  allDigits (s ++ t) = allDigits s && allDigits t.
Proof.
  induction s as [|c s IH]; simpl; [reflexivity|].
  rewrite IH. apply andb_assoc.
Qed.

Lemma allUpper_app (s t : string) :
  allUpper (s ++ t) = allUpper s && allUpper t.
Proof.
  induction s as [|c s IH]; simpl; [reflexivity|].
  rewrite IH. apply andb_assoc.
Qed.

Lemma parseIntAcc_app (s t : string) (acc : Z) :
  allDigits s = true ->
  parseIntAcc acc (s ++ t) = parseIntAcc (parseIntAcc acc s) t.
Proof.
  revert acc. induction s as [|c s IH]; simpl; intros acc H; [reflexivity|].
  apply andb_prop in H as [Hc Hs]. rewrite Hc. now apply IH.
Qed.

Lemma decimalDigits_spec (fuel : positive) :
  forall n, 0 <= n <= Zpos fuel ->
    allDigits (decimalDigits fuel n) = true /\
    decimalDigits fuel n <> "" /\
    parseIntAcc 0 (decimalDigits fuel n) = n.
Proof.
  assert (Hlast : forall n, 0 <= n < 10 ->
            allDigits (String (fromCharCode (48 + n mod 10)) "") = true /\
            String (fromCharCode (48 + n mod 10)) "" <> "" /\
            parseIntAcc 0 (String (fromCharCode (48 + n mod 10)) "") = n).
  { intros n Hn. rewrite Z.mod_small by lia. cbn [allDigits parseIntAcc].
    rewrite isDigit_fromCharCode by lia.
    rewrite charCode_fromCharCode by lia.
    repeat split; [discriminate | lia]. }
  assert (Hstep : forall p, (forall n, 0 <= n <= Zpos p ->
              allDigits (decimalDigits p n) = true /\
              decimalDigits p n <> "" /\
              parseIntAcc 0 (decimalDigits p n) = n) ->
            forall n, 0 <= n -> n / 10 <= Zpos p ->
              let s := if n <? 10 then String (fromCharCode (48 + n mod 10)) ""
                       else decimalDigits p (n / 10) ++
                            String (fromCharCode (48 + n mod 10)) "" in
              allDigits s = true /\ s <> "" /\ parseIntAcc 0 s = n).
  { intros p IH n Hn Hdiv. cbv zeta.
    destruct (Z.ltb_spec n 10) as [Hlt|Hge]; [apply Hlast; lia|].
    destruct (IH (n / 10)) as (Hd & Hne & Hp).
    { split; [apply Z.div_pos; lia | assumption]. }
    pose proof (Z.mod_pos_bound n 10 ltac:(lia)) as Hm.
    rewrite allDigits_app, Hd, parseIntAcc_app, Hp by assumption.
    cbn [allDigits parseIntAcc andb].
    rewrite isDigit_fromCharCode, charCode_fromCharCode by lia.
    repeat split.
    - destruct (decimalDigits p (n / 10)); [congruence | discriminate].
    - pose proof (Z.div_mod n 10 ltac:(lia)). lia. }
  induction fuel as [p IH | p IH |]; intros n Hn.
  - apply (Hstep p IH); [lia|].
    apply Z.div_le_upper_bound; lia.
  - apply (Hstep p IH); [lia|].
    apply Z.div_le_upper_bound; lia.
  - apply Hlast. lia.
Qed.

Lemma intToString_nonneg (n : Z) :
  0 <= n ->
  allDigits (intToString n) = true /\ intToString n <> "" /\
  parseInt (intToString n) = n.
Proof.
  intros Hn. unfold intToString, parseInt.
  destruct (Z.ltb_spec n 0) as [H|_]; [lia|].
  apply decimalDigits_spec.
  destruct n as [|p|p]; simpl; lia.
Qed.

(** With enough fuel the loop of [colToLetter] runs to its exit: more fuel
    changes nothing. *)
Lemma colToLetter_loop_fuel (fuel : nat) :
  forall col letter, col < Z.of_nat fuel ->
    colToLetter_loop (S fuel) col letter = colToLetter_loop fuel col letter.
Proof.
  induction fuel as [|fuel IH]; intros c letter Hc.
  - simpl. destruct (Z.leb_spec 0 c); [lia | reflexivity].
  - change (colToLetter_loop (S (S fuel)) c letter)
      with (if 0 <=? c
            then colToLetter_loop (S fuel) (c / 26 - 1)
                   (String (fromCharCode (65 + Z.rem c 26)) letter)
            else letter).
    change (colToLetter_loop (S fuel) c letter)
      with (if 0 <=? c
            then colToLetter_loop fuel (c / 26 - 1)
                   (String (fromCharCode (65 + Z.rem c 26)) letter)
            else letter).
    destruct (Z.leb_spec 0 c) as [H0|]; [|reflexivity].
    apply IH.
    assert (c / 26 <= c) by (apply Z.div_le_upper_bound; lia). lia.
Qed.

Lemma letterToCol_loop_app (s t : string) (acc : Z) :
  letterToCol_loop acc (s ++ t) = letterToCol_loop (letterToCol_loop acc s) t.
Proof.
  revert acc. induction s as [|c s IH]; simpl; intros acc; [reflexivity|].
  apply IH.
Qed.

Lemma append_assoc_char (s t : string) (c : ascii) :
  s ++ String c t = (s ++ String c "") ++ t.
Proof.
  induction s as [|d s IH]; simpl; [reflexivity|]. now rewrite IH.
Qed.

(** What the loop of [colToLetter] prepends to [letter]: a non-empty run of
    upper-case letters that [letterToCol]'s loop reads back as [c + 1]. *)
Lemma colToLetter_loop_spec (fuel : nat) :
  forall c letter, 0 <= c < Z.of_nat fuel ->
    exists s, colToLetter_loop fuel c letter = s ++ letter /\
              s <> "" /\ allUpper s = true /\
              letterToCol_loop 0 s = c + 1.
Proof.
  induction fuel as [|fuel IH]; intros c letter Hc; [lia|].
  cbn [colToLetter_loop].
  destruct (Z.leb_spec 0 c) as [_|]; [|lia].
  rewrite Z.rem_mod_nonneg by lia.
  pose proof (Z.mod_pos_bound c 26 ltac:(lia)) as Hm.
  pose proof (Z.div_mod c 26 ltac:(lia)) as Hdm.
  set (ch := fromCharCode (65 + c mod 26)).
  assert (Hch : charCode ch = 65 + c mod 26)
    by (apply charCode_fromCharCode; lia).
  assert (Hup : isUpper ch = true) by (apply isUpper_fromCharCode; lia).
  destruct (Z.lt_ge_cases c 26) as [Hsmall|Hbig].
  - (* last iteration: the next column index is -1 *)
    rewrite Z.div_small by lia.
    exists (String ch ""). repeat split.
    + destruct fuel; reflexivity.
    + discriminate.
    + simpl. now rewrite Hup.
    + simpl. rewrite Hch. rewrite Z.mod_small in * by lia. lia.
  - assert (Hq : 1 <= c / 26) by (apply Z.div_le_lower_bound; lia).
    assert (Hlt : c / 26 <= c) by (apply Z.div_le_upper_bound; lia).
    destruct (IH (c / 26 - 1) (String ch letter)) as (s & Hs & Hne & Hall & Hval);
      [lia|].
    exists (s ++ String ch ""). repeat split.
    + rewrite Hs. apply append_assoc_char.
    + destruct s; [congruence | discriminate].
    + rewrite allUpper_app, Hall. simpl. now rewrite Hup.
    + rewrite letterToCol_loop_app, Hval. simpl. rewrite Hch. lia.
Qed.

Lemma append_empty_r (s : string) : s ++ "" = s.
Proof. induction s as [|c s IH]; simpl; [reflexivity | now rewrite IH]. Qed.

Lemma colToLetter_spec (c : Z) :
  0 <= c ->
  colToLetter c <> "" /\ allUpper (colToLetter c) = true /\
  letterToCol (colToLetter c) = c.
Proof.
  intros Hc. unfold colToLetter, letterToCol.
  destruct (colToLetter_loop_spec (S (Z.to_nat c)) c "") as (s & Hs & Hne & Hall & Hval);
    [lia|].
  rewrite Hs, append_empty_r. repeat split; [assumption | assumption | lia].
Qed.

Lemma spanUpper_app (letters digits : string) :
  allUpper letters = true -> allDigits digits = true ->
  spanUpper (letters ++ digits) = (letters, digits).
Proof.
  intros Hl Hd. induction letters as [|c l IH]; simpl in *.
  - destruct digits as [|d ds]; [reflexivity|]. simpl in *.
    apply andb_prop in Hd as [Hd _].
    now rewrite (isUpper_not_isDigit d Hd).
  - apply andb_prop in Hl as [Hc Hl]. rewrite Hc, (IH Hl). reflexivity.
Qed.

(** The pattern of [parseCellId] accepts every label made of letters then
    digits, and splits it where the digits start. *)
Lemma matchCellId_app (letters digits : string) :
  letters <> "" -> digits <> "" ->
  allUpper letters = true -> allDigits digits = true ->
  matchCellId (letters ++ digits) = Some (letters, digits).
Proof.
  intros Hl Hd Hul Hdd. unfold matchCellId.
  rewrite spanUpper_app by assumption.
  destruct letters; [congruence|]. destruct digits; [congruence|].
  now rewrite Hdd.
Qed.

Lemma parseCellId_getCellId (r c : Z) :
  0 <= r -> 0 <= c ->
  parseCellId (getCellId r c) = Some {| col := c; row := r |}.
Proof.
  intros Hr Hc. unfold parseCellId, getCellId.
  destruct (colToLetter_spec c Hc) as (Hne & Hup & Hval).
  destruct (intToString_nonneg (r + 1)) as (Hdig & Hdne & Hparse); [lia|].
  rewrite matchCellId_app by assumption.
  rewrite Hval, Hparse. f_equal. f_equal. lia.
Qed.

(** C1. Address round-trip: for every row in [0, 1000) and every column in
    [0, 52), the label built by [getCellId] (letters of [colToLetter], then
    the 1-based row in decimal) is parsed back by [parseCellId] to exactly
    the same (row, column) pair. *)
Theorem address_round_trip (r c : Z) :
  0 <= r < maxRows CONFIG -> 0 <= c < maxCols CONFIG ->
  parseCellId (getCellId r c) = Some {| col := c; row := r |}.
Proof.
  intros Hr Hc. apply parseCellId_getCellId; lia.
Qed.

Lemma address_round_trip_witness :
  getCellId 999 51 = "AZ1000" /\
  parseCellId (getCellId 999 51) = Some {| col := 51; row := 999 |}.
Proof.
  split; [reflexivity|].
  apply (address_round_trip 999 51); simpl; lia.
Defined.

(** ** Cell store: lookup, assignment and removal *)

Lemma lookup_assign_same (k : string) (c : Cell) (d : CellStore) :
  lookup k (assign k c d) = Some c.
Proof.
  induction d as [|[k0 c0] d IH]; simpl.
  - now rewrite String.eqb_refl.
  - destruct (String.eqb_spec k0 k) as [->|Hne]; simpl.
    + now rewrite String.eqb_refl.
    + apply String.eqb_neq in Hne. now rewrite Hne.
Qed.

Lemma lookup_assign_other (k k' : string) (c : Cell) (d : CellStore) :
  k' <> k -> lookup k' (assign k c d) = lookup k' d.
Proof.
  intros Hne. induction d as [|[k0 c0] d IH]; simpl.
  - destruct (String.eqb_spec k k'); [congruence | reflexivity].
  - destruct (String.eqb_spec k0 k) as [->|Hk]; simpl.
    + destruct (String.eqb_spec k k'); [congruence | reflexivity].
    + destruct (String.eqb_spec k0 k'); [reflexivity | exact IH].
Qed.

Lemma keys_assign_present (k : string) (c c0 : Cell) (d : CellStore) :
  lookup k d = Some c0 -> keys (assign k c d) = keys d.
Proof.
  induction d as [|[k0 c1] d IH]; simpl; [discriminate|].
  destruct (String.eqb_spec k0 k) as [->|Hk]; simpl; [reflexivity|].
  intros H. f_equal. now apply IH.
Qed.

Lemma keys_assign_absent (k : string) (c : Cell) (d : CellStore) :
  lookup k d = None -> keys (assign k c d) = (keys d ++ [k])%list.
Proof.
  induction d as [|[k0 c1] d IH]; simpl; [reflexivity|].
  destruct (String.eqb_spec k0 k) as [->|Hk]; simpl; [discriminate|].
  intros H. f_equal. now apply IH.
Qed.

Lemma lookup_none_keys (k : string) (d : CellStore) :
  lookup k d = None <-> ~ In k (keys d).
Proof.
  induction d as [|[k0 c0] d IH]; simpl.
  - split; [intros _ [] | reflexivity].
  - destruct (String.eqb_spec k0 k) as [->|Hk].
    + split; [discriminate | intros H; exfalso; apply H; now left].
    + rewrite IH. split; [intros H [E|Hin]; [congruence | now apply H] | tauto].
Qed.

Lemma lookup_some_keys (k : string) (c : Cell) (d : CellStore) :
  lookup k d = Some c -> In k (keys d).
Proof.
  intros H. destruct (in_dec string_dec k (keys d)) as [Hin|Hnin]; [assumption|].
  apply lookup_none_keys in Hnin. congruence.
Qed.

Lemma lookup_remove_same (k : string) (d : CellStore) :
  lookup k (remove k d) = None.
Proof.
  induction d as [|[k0 c0] d IH]; simpl; [reflexivity|].
  destruct (String.eqb_spec k0 k) as [->|Hk]; simpl; [exact IH|].
  apply String.eqb_neq in Hk. now rewrite Hk.
Qed.

Lemma isEmpty_false (s : string) : isEmpty s = false <-> s <> "".
Proof. destruct s; simpl; split; congruence. Qed.

(** ** One pass of the recalculation engine *)

Section Recalculation.
Variable h : Host.

(** What one step of the pass leaves alone: everything but the store and
    the log of cell texts. *)
Lemma recalculateCell_frame (st : State) (k : string) :
  isEditing (recalculateCell h st k) = isEditing st /\
  rows (recalculateCell h st k) = rows st /\
  cols (recalculateCell h st k) = cols st /\
  selectedCell (recalculateCell h st k) = selectedCell st /\
  keys (data (recalculateCell h st k)) = keys (data st).
Proof.
  unfold recalculateCell.
  destruct (lookup k (data st)) as [cell|] eqn:Hk; [|repeat split].
  destruct (isEmpty (formula cell)); [repeat split|]. simpl.
  repeat split. eapply keys_assign_present; eassumption.
Qed.

Lemma recalculateCell_other (st : State) (k k' : string) :
  k' <> k -> lookup k' (data (recalculateCell h st k)) = lookup k' (data st).
Proof.
  intros Hne. unfold recalculateCell.
  destruct (lookup k (data st)) as [cell|]; [|reflexivity].
  destruct (isEmpty (formula cell)); [reflexivity|]. simpl.
  now apply lookup_assign_other.
Qed.

(** The step at a formula cell: value and display value are refreshed from
    the store as it stands, formula and format stay. *)
Lemma recalculateCell_formula (st : State) (k : string) (cell : Cell) :
  lookup k (data st) = Some cell -> formula cell <> "" ->
  let v := evaluateFormula h (data st) (formula cell) k in
  let dv := formatValue h v (format cell) in
  lookup k (data (recalculateCell h st k)) =
    Some {| value := v; formula := formula cell; format := format cell;
            displayValue := dv |} /\
  cellText (recalculateCell h st k) = (cellText st ++ [(k, dv)])%list.
Proof.
  intros Hk Hf. unfold recalculateCell. rewrite Hk.
  apply isEmpty_false in Hf. rewrite Hf. simpl.
  now rewrite lookup_assign_same.
Qed.

Lemma recalculateCell_plain (st : State) (k : string) (cell : Cell) :
  lookup k (data st) = Some cell -> formula cell = "" ->
  recalculateCell h st k = st.
Proof.
  intros Hk Hf. unfold recalculateCell. rewrite Hk, Hf. reflexivity.
Qed.

Lemma recalculateCell_absent (st : State) (k : string) :
  lookup k (data st) = None -> recalculateCell h st k = st.
Proof.
  intros Hk. unfold recalculateCell. now rewrite Hk.
Qed.

(** A step never changes which cells hold a formula, nor the formula. *)
Lemma recalculateCell_keeps_formula (st : State) (k k' : string) :
  option_map formula (lookup k' (data (recalculateCell h st k))) =
  option_map formula (lookup k' (data st)).
Proof.
  destruct (string_dec k' k) as [->|Hne].
  - destruct (lookup k (data st)) as [cell|] eqn:Hk.
    + destruct (string_dec (formula cell) "") as [Hf|Hf].
      * now rewrite (recalculateCell_plain st k cell Hk Hf), Hk.
      * destruct (recalculateCell_formula st k cell Hk Hf) as [-> _].
        reflexivity.
    + now rewrite (recalculateCell_absent st k Hk), Hk.
  - now rewrite recalculateCell_other.
Qed.

(** A cell without a formula is not touched by any step. *)
Lemma recalculateCell_keeps_plain (st : State) (k k' : string) (cell : Cell) :
  lookup k' (data st) = Some cell -> formula cell = "" ->
  lookup k' (data (recalculateCell h st k)) = Some cell.
Proof.
  intros Hk Hf. destruct (string_dec k' k) as [->|Hne].
  - now rewrite (recalculateCell_plain st k cell Hk Hf).
  - now rewrite recalculateCell_other.
Qed.

Lemma pass_frame (ks : list string) : forall st,
  isEditing (pass h ks st) = isEditing st /\
  rows (pass h ks st) = rows st /\
  cols (pass h ks st) = cols st /\
  selectedCell (pass h ks st) = selectedCell st /\
  keys (data (pass h ks st)) = keys (data st).
Proof.
  induction ks as [|k ks IH]; intros st; simpl; [repeat split|].
  destruct (IH (recalculateCell h st k)) as (H1 & H2 & H3 & H4 & H5).
  destruct (recalculateCell_frame st k) as (G1 & G2 & G3 & G4 & G5).
  unfold pass in *. repeat split; congruence.
Qed.

Lemma pass_untouched (ks : list string) (k : string) : forall st,
  ~ In k ks -> lookup k (data (pass h ks st)) = lookup k (data st).
Proof.
  induction ks as [|k0 ks IH]; intros st Hnin; simpl; [reflexivity|].
  unfold pass in *. rewrite IH by (intros H; apply Hnin; now right).
  apply recalculateCell_other. intros ->. apply Hnin. now left.
Qed.

Lemma pass_keeps_formula (ks : list string) (k : string) : forall st,
  option_map formula (lookup k (data (pass h ks st))) =
  option_map formula (lookup k (data st)).
Proof.
  induction ks as [|k0 ks IH]; intros st; simpl; [reflexivity|].
  unfold pass in *. rewrite IH. apply recalculateCell_keeps_formula.
Qed.

Lemma pass_keeps_plain (ks : list string) (k : string) (cell : Cell) : forall st,
  lookup k (data st) = Some cell -> formula cell = "" ->
  lookup k (data (pass h ks st)) = Some cell.
Proof.
  induction ks as [|k0 ks IH]; intros st Hk Hf; simpl; [assumption|].
  unfold pass in *. apply IH; [|assumption].
  now apply recalculateCell_keeps_plain.
Qed.

Lemma pass_keeps_absent (ks : list string) (k : string) : forall st,
  lookup k (data st) = None -> lookup k (data (pass h ks st)) = None.
Proof.
  intros st Hk.
  pose proof (pass_keeps_formula ks k st) as H. rewrite Hk in H.
  destruct (lookup k (data (pass h ks st))); [discriminate | reflexivity].
Qed.

End Recalculation.


(** ** Committing an edit *)

Lemma assign_assign (k : string) (c1 c2 : Cell) (d : CellStore) :
  assign k c2 (assign k c1 d) = assign k c2 d.
Proof.
  induction d as [|[k0 c0] d IH]; simpl.
  - now rewrite String.eqb_refl.
  - destruct (String.eqb_spec k0 k) as [->|Hne]; simpl.
    + now rewrite String.eqb_refl.
    + apply String.eqb_neq in Hne. now rewrite Hne, IH.
Qed.

Section Editing.
Variable h : Host.

(** [finishEditing], once the guard on [state.isEditing] has passed: the
    assignments to the edited cell, then one recalculation pass. *)
Lemma finishEditing_committed (st : State) (cellId input : string) :
  isEditing st = true ->
  finishEditing h st cellId input = recalculateAll h (committedState h st cellId input).
Proof.
  intros He. unfold finishEditing, committedState, committedCell.
  rewrite He. cbn [negb]. cbv zeta.
  change (data (withEditing false st)) with (data st).
  destruct (lookup cellId (data st)) as [old|] eqn:Hold.
  - change (data (withEditing false st)) with (data st).
    rewrite Hold. reflexivity.
  - cbv zeta.
    change (data (withData (assign cellId emptyCell (data st)) (withEditing false st)))
      with (assign cellId emptyCell (data st)).
    rewrite lookup_assign_same, !assign_assign. reflexivity.
Qed.

Lemma finishEditing_idle (st : State) (cellId input : string) :
  isEditing st = false -> finishEditing h st cellId input = st.
Proof. intros He. unfold finishEditing. now rewrite He. Qed.

Lemma committedState_lookup (st : State) (cellId input : string) :
  lookup cellId (data (committedState h st cellId input)) =
  Some (committedCell h (data st) cellId input).
Proof. unfold committedState. cbn [data writeText withData]. apply lookup_assign_same. Qed.

Lemma committedCell_formula (d : CellStore) (cellId input : string) :
  formula (committedCell h d cellId input) =
  if startsWith "=" input then input else "".
Proof. unfold committedCell. destruct (startsWith "=" input); reflexivity. Qed.

(** The formula text stored for the edited cell is the text entered,
    whatever its evaluation gave, and the pass does not rewrite it. *)
Lemma finishEditing_formula (st : State) (cellId input : string) :
  isEditing st = true ->
  exists cell,
    lookup cellId (data (finishEditing h st cellId input)) = Some cell /\
    formula cell = if startsWith "=" input then input else "".
Proof.
  intros He. rewrite finishEditing_committed by assumption.
  unfold recalculateAll.
  pose proof (pass_keeps_formula h (keys (data (committedState h st cellId input)))
                cellId (committedState h st cellId input)) as H.
  rewrite committedState_lookup in H. cbn [option_map] in H.
  rewrite committedCell_formula in H.
  destruct (lookup cellId (data (pass h _ _))) as [cell|]; [|discriminate].
  exists cell. split; [reflexivity|]. now injection H.
Qed.

End Editing.

(** C9. Committing an edit whose text is empty keeps (or creates) the
    record of the cell, with value [""] and formula [""], whereas the clear
    operation (Delete / Backspace) removes the key from the store: the two
    leave observably different stores.  (An edit is committed while
    [state.isEditing] holds; otherwise [finishEditing] returns at once.) *)
Theorem empty_edit_keeps_the_record (h : Host) (st : State) (cellId : string) :
  isEditing st = true ->
  (exists cell,
     lookup cellId (data (finishEditing h st cellId "")) = Some cell /\
     value cell = VStr "" /\ formula cell = "") /\
  In cellId (keys (data (finishEditing h st cellId ""))) /\
  (forall st0, isEditing st0 = false -> parseCellId cellId <> None ->
     lookup cellId (data (clearCell h st0 cellId)) = None /\
     ~ In cellId (keys (data (clearCell h st0 cellId)))) /\
  (forall st0, isEditing st0 = false -> finishEditing h st0 cellId "" = st0).
Proof.
  intros He.
  assert (Hrec : exists cell,
     lookup cellId (data (finishEditing h st cellId "")) = Some cell /\
     value cell = VStr "" /\ formula cell = "").
  { rewrite finishEditing_committed by assumption. unfold recalculateAll.
    eexists. split; [|split].
    - apply pass_keeps_plain; [apply committedState_lookup|].
      now rewrite committedCell_formula.
    - reflexivity.
    - reflexivity. }
  split; [exact Hrec|]. split; [|split].
  - destruct Hrec as (cell & Hc & _). eapply lookup_some_keys; eassumption.
  - intros st0 He0 Hp.
    assert (Hnone : lookup cellId (data (clearCell h st0 cellId)) = None).
    { unfold clearCell. destruct (parseCellId cellId); [|congruence].
      rewrite He0. unfold recalculateAll.
      apply pass_keeps_absent. cbn [data writeText withData].
      apply lookup_remove_same. }
    split; [exact Hnone | now apply lookup_none_keys].
  - intros st0 He0. now apply finishEditing_idle.
Qed.

Lemma empty_edit_keeps_the_record_witness :
  (exists cell,
     lookup "B2" (data (finishEditing refHost (withEditing true initialState) "B2" ""))
       = Some cell /\ value cell = VStr "" /\ formula cell = "") /\
  lookup "B2" (data (clearCell refHost
     (finishEditing refHost (withEditing true initialState) "B2" "") "B2")) = None.
Proof.
  destruct (empty_edit_keeps_the_record refHost (withEditing true initialState) "B2"
              eq_refl) as (Hrec & _ & Hclear & _).
  split; [exact Hrec|].
  apply (Hclear (finishEditing refHost (withEditing true initialState) "B2" ""));
    [reflexivity | discriminate].
Defined.

(** ** Formula evaluation: faults and the error marker *)

(** The marker itself counts as "not a number". *)
Lemma isNaN_ERROR : isNaN ERROR = true.
Proof. vm_compute. reflexivity. Qed.

Lemma evaluateFormula_cases (h : Host) (d : CellStore) (text currentCell : string) :
  (evalExpr h (substituteFormula d text currentCell) = None /\
   evaluateFormula h d text currentCell = ERROR) \/
  (exists r, evalExpr h (substituteFormula d text currentCell) = Some r /\
             isNaN r = true /\ evaluateFormula h d text currentCell = ERROR) \/
  (exists r, evalExpr h (substituteFormula d text currentCell) = Some r /\
             isNaN r = false /\ evaluateFormula h d text currentCell = r).
Proof.
  unfold evaluateFormula.
  destruct (evalExpr h (substituteFormula d text currentCell)) as [r|].
  - destruct (isNaN r) eqn:Hr.
    + right; left. now exists r.
    + right; right. now exists r.
  - now left.
Qed.

(** C2, as the script has it.  [evaluateFormula] always returns (the
    [try]/[catch] turns every throw into the marker), and the marker
    ["#ERROR"] is returned exactly when evaluating the substituted text
    throws or gives a result that [isNaN] rejects (such as [0/0]).  A
    number that is not NaN is returned as it is, so a division by zero that
    gives an infinity is not an error.  The formula text stored for the
    edited cell is the text entered, whatever the evaluation gave. *)
Theorem error_marker_on_faults (h : Host) (d : CellStore) (text currentCell : string) :
  (evaluateFormula h d text currentCell = ERROR <->
     evalExpr h (substituteFormula d text currentCell) = None \/
     exists r, evalExpr h (substituteFormula d text currentCell) = Some r /\
               isNaN r = true) /\
  (forall x, evalExpr h (substituteFormula d text currentCell) = Some (VNum x) ->
             PrimFloat.is_nan x = false ->
             evaluateFormula h d text currentCell = VNum x) /\
  (forall st cellId input,
     isEditing st = true -> startsWith "=" input = true ->
     exists cell,
       lookup cellId (data (finishEditing h st cellId input)) = Some cell /\
       formula cell = input).
Proof.
  split; [|split].
  - destruct (evaluateFormula_cases h d text currentCell)
      as [[Hn He] | [(r & Hr & Hnan & He) | (r & Hr & Hnan & He)]].
    + split; [now left | now intros _].
    + split; [intros _; right; now exists r | now intros _].
    + split.
      * intros Hout. exfalso. rewrite He in Hout. rewrite Hout in Hnan.
        rewrite isNaN_ERROR in Hnan. discriminate.
      * intros [Hnone | (r' & Hr' & Hnan')]; [congruence|].
        rewrite Hr in Hr'. injection Hr' as <-. congruence.
  - intros x Hx Hnum. unfold evaluateFormula. rewrite Hx.
    unfold isNaN. cbn [toNumber]. now rewrite Hnum.
  - intros st cellId input He Hin.
    destruct (finishEditing_formula h st cellId input He) as (cell & Hc & Hf).
    rewrite Hin in Hf. now exists cell.
Qed.

Lemma error_marker_on_faults_witness :
  evaluateFormula refHost [] "=0/0" "A1" = ERROR /\
  evaluateFormula refHost [] "=1+" "A1" = ERROR /\
  evaluateFormula refHost [] "=1/0" "A1" = VNum PrimFloat.infinity /\
  (exists cell,
     lookup "A1" (data (finishEditing refHost (withEditing true initialState) "A1" "=0/0"))
       = Some cell /\ formula cell = "=0/0").
Proof.
  pose proof (error_marker_on_faults refHost [] "=0/0" "A1") as (H1 & _ & H3).
  pose proof (error_marker_on_faults refHost [] "=1+" "A1") as (H4 & _ & _).
  pose proof (error_marker_on_faults refHost [] "=1/0" "A1") as (_ & H5 & _).
  split; [|split; [|split]].
  - apply H1. right. exists (VNum PrimFloat.nan). split; reflexivity.
  - apply H4. left. reflexivity.
  - apply (H5 PrimFloat.infinity); reflexivity.
  - apply (H3 (withEditing true initialState) "A1" "=0/0"); reflexivity.
Defined.

(** C2 fails as stated: the quotient [1/0] is not finite, and the formula
    [=1/0] evaluates to that infinity, not to the error marker. *)
Lemma division_by_zero_is_not_an_error :
  PrimFloat.is_finite (PrimFloat.div PrimFloat.one PrimFloat.zero) = false /\
  evaluateFormula refHost [] "=1/0" "A1" = VNum PrimFloat.infinity /\
  evaluateFormula refHost [] "=1/0" "A1" <> ERROR.
Proof.
  split; [reflexivity|]. split; [reflexivity|].
  intros H. vm_compute in H. discriminate H.
Qed.

(** ** Bare-reference substitution *)







Lemma length_append (s t : string) :
  String.length (s ++ t) = (String.length s + String.length t)%nat.
Proof. induction s as [|c s IH]; cbn; [reflexivity | now rewrite IH]. Qed.






Section SelfReference.
Variable h : Host.
Hypothesis host_adds : evalExpr h "0+1" = Some (VNum PrimFloat.one).




End SelfReference.

Lemma append_assoc (s t u : string) : (s ++ t) ++ u = s ++ t ++ u.
Proof. induction s as [|c s IH]; simpl; [reflexivity | now rewrite IH]. Qed.







Lemma replaceAll_all_skipped (f : string -> option (string * string)) (t : string) :
  replaceAll f (String.length t) t = "".
Proof. induction t as [|c t IH]; [reflexivity | exact IH]. Qed.




Lemma noUpper_endsUpper (s : string) : noUpper s = true -> endsUpper s = false.
Proof.
  induction s as [|c s IH]; [reflexivity|]. cbn [noUpper]. intros H.
  apply andb_prop in H as [Hc Hs]. apply negb_true_iff in Hc.
  destruct s as [|c' s']; [exact Hc | exact (IH Hs)].
Qed.






(** ** Recalculation: one pass, in insertion order *)

Lemma NoDup_app_inv (A : Type) (l1 l2 : list A) :
  NoDup (l1 ++ l2) ->
  NoDup l1 /\ NoDup l2 /\ forall a, In a l1 -> ~ In a l2.
Proof.
  induction l1 as [|x l1 IH]; cbn; intros H.
  - repeat split; [constructor | assumption | intros a []].
  - inversion H as [|? ? Hx Hrest]; subst.
    destruct (IH Hrest) as (H1 & H2 & H3). repeat split.
    + constructor; [|assumption]. intros Hin. apply Hx, in_or_app. now left.
    + assumption.
    + intros a [<-|Ha]; [|now apply H3].
      intros Hin. apply Hx, in_or_app. now right.
Qed.

Lemma NoDup_keys_assign (k : string) (c : Cell) (d : CellStore) :
  NoDup (keys d) -> NoDup (keys (assign k c d)).
Proof.
  intros Hnd. destruct (lookup k d) as [c0|] eqn:Hk.
  - now rewrite (keys_assign_present k c c0 d Hk).
  - rewrite (keys_assign_absent k c d Hk).
    apply NoDup_app; [assumption | repeat constructor; intros [] |].
    intros x Hin [<-|[]]. now apply lookup_none_keys in Hk.
Qed.

Section OnePass.
Variable h : Host.

Lemma hasFormula_recalculateCell (st : State) (k k' : string) :
  hasFormula (data (recalculateCell h st k)) k' = hasFormula (data st) k'.
Proof.
  unfold hasFormula.
  pose proof (recalculateCell_keeps_formula h st k k') as H.
  destruct (lookup k' (data (recalculateCell h st k))) as [c1|],
           (lookup k' (data st)) as [c2|]; try discriminate; [|reflexivity].
  cbn [option_map] in H. now injection H as ->.
Qed.

(** The step writes one cell text exactly when the key holds a formula. *)
Lemma recalculateCell_log (st : State) (k : string) :
  (hasFormula (data st) k = true /\
   exists cell, lookup k (data (recalculateCell h st k)) = Some cell /\
     cellText (recalculateCell h st k) = (cellText st ++ [(k, displayValue cell)])%list) \/
  (hasFormula (data st) k = false /\ recalculateCell h st k = st).
Proof.
  unfold hasFormula. destruct (lookup k (data st)) as [cell|] eqn:Hk.
  - destruct (string_dec (formula cell) "") as [Hf|Hf].
    + right. rewrite Hf. split; [reflexivity|].
      now apply (recalculateCell_plain h st k cell).
    + left. split; [apply isEmpty_false in Hf; now rewrite Hf|].
      destruct (recalculateCell_formula h st k cell Hk Hf) as [Hnew Hlog].
      eexists. split; [exact Hnew | exact Hlog].
  - right. split; [reflexivity | now apply recalculateCell_absent].
Qed.

(** The texts written by a pass over distinct keys: one per formula cell,
    in the order of the keys, each the display value the cell ends with. *)
Lemma pass_log (ks : list string) : forall st,
  NoDup ks ->
  exists log,
    cellText (pass h ks st) = (cellText st ++ log)%list /\
    map fst log = filter (hasFormula (data st)) ks /\
    forall k dv, In (k, dv) log ->
      exists cell, lookup k (data (pass h ks st)) = Some cell /\ displayValue cell = dv.
Proof.
  induction ks as [|k ks IH]; intros st Hnd.
  - exists []. cbn. rewrite app_nil_r. repeat split. intros k dv [].
  - inversion Hnd as [|? ? Hnin Hnd']; subst.
    destruct (IH (recalculateCell h st k) Hnd') as (log & Hlog & Hkeys & Hdv).
    assert (Hfilter : filter (hasFormula (data (recalculateCell h st k))) ks =
                      filter (hasFormula (data st)) ks).
    { apply filter_ext. intros k'. apply hasFormula_recalculateCell. }
    change (pass h (k :: ks) st) with (pass h ks (recalculateCell h st k)).
    cbn [filter].
    destruct (recalculateCell_log st k) as [(Hf & cell & Hc & Ht) | (Hf & Hsame)];
      rewrite Hf.
    + exists ((k, displayValue cell) :: log). repeat split.
      * rewrite Hlog, Ht, <- app_assoc. reflexivity.
      * cbn [map fst]. now rewrite Hkeys, Hfilter.
      * intros k' dv [[= <- <-] | Hin]; [|now apply Hdv].
        exists cell. split; [|reflexivity].
        now rewrite pass_untouched.
    + exists log. repeat split.
      * rewrite Hlog, Hsame. reflexivity.
      * now rewrite Hkeys, Hfilter.
      * exact Hdv.
Qed.

Lemma pass_app (ks1 ks2 : list string) (st : State) :
  pass h (ks1 ++ ks2) st = pass h ks2 (pass h ks1 st).
Proof. unfold pass. apply fold_left_app. Qed.

(** The cell at position [k] of a pass over distinct keys is evaluated
    once, against the store in which the cells before it are refreshed and
    the cells from it on are as the pass found them. *)
Lemma pass_cell (ks1 ks2 : list string) (k : string) (st : State) (cell : Cell) :
  NoDup (ks1 ++ k :: ks2) ->
  lookup k (data st) = Some cell -> formula cell <> "" ->
  let seen := data (pass h ks1 st) in
  (forall j, In j (k :: ks2) -> lookup j seen = lookup j (data st)) /\
  exists cell',
    lookup k (data (pass h (ks1 ++ k :: ks2) st)) = Some cell' /\
    formula cell' = formula cell /\ format cell' = format cell /\
    value cell' = evaluateFormula h seen (formula cell) k /\
    displayValue cell' = formatValue h (value cell') (format cell).
Proof.
  intros Hnd Hk Hf seen.
  assert (Hsplit : forall j, In j (k :: ks2) -> ~ In j ks1).
  { intros j Hj Hin. apply NoDup_app_inv in Hnd as (_ & _ & Hdisj).
    exact (Hdisj j Hin Hj). }
  assert (Hk2 : ~ In k ks2).
  { apply NoDup_app_inv in Hnd as (_ & Hnd2 & _). now inversion Hnd2. }
  assert (Hseen : forall j, In j (k :: ks2) -> lookup j seen = lookup j (data st)).
  { intros j Hj. apply pass_untouched. now apply Hsplit. }
  split; [exact Hseen|].
  rewrite pass_app.
  change (pass h (k :: ks2) (pass h ks1 st))
    with (pass h ks2 (recalculateCell h (pass h ks1 st) k)).
  rewrite pass_untouched by assumption.
  assert (Hk' : lookup k (data (pass h ks1 st)) = Some cell).
  { rewrite <- Hk. apply Hseen. now left. }
  destruct (recalculateCell_formula h (pass h ks1 st) k cell Hk' Hf) as [Hnew _].
  eexists. split; [exact Hnew|]. repeat split.
Qed.

End OnePass.

(** Every store reached by editing from the empty sheet has distinct keys. *)
Lemma edits_NoDup (h : Host) (es : list (string * string)) :
  NoDup (keys (data (edits h es))).
Proof.
  unfold edits.
  assert (H : forall st, NoDup (keys (data st)) ->
                NoDup (keys (data (fold_left (edit h) es st)))).
  { induction es as [|e es IH]; intros st Hst; [exact Hst|].
    cbn [fold_left]. apply IH. unfold edit.
    rewrite finishEditing_committed by reflexivity. unfold recalculateAll.
    destruct (pass_frame h (keys (data (committedState h (withEditing true st) (fst e) (snd e))))
                (committedState h (withEditing true st) (fst e) (snd e)))
      as (_ & _ & _ & _ & ->).
    unfold committedState. cbn [data writeText withData withEditing].
    now apply NoDup_keys_assign. }
  apply H. constructor.
Qed.

Lemma committedState_edits_NoDup (h : Host) (es : list (string * string))
    (cellId input : string) :
  NoDup (keys (data (committedState h (withEditing true (edits h es)) cellId input))).
Proof.
  unfold committedState. cbn [data writeText withData withEditing].
  apply NoDup_keys_assign, edits_NoDup.
Qed.

(** C5. The recalculation engine makes exactly one pass over the cells that
    hold a formula, in the insertion order of the store: it writes one text
    per formula cell in that order, keeps the keys and the cells without
    formula, and evaluates each formula cell once, against the store in
    which earlier cells are refreshed and later ones are not.  Every
    committed edit and every clearing of a cell ends with this pass.  The
    engine does not iterate: with A1 [=B1] entered before B1 [=C1], an edit
    of C1 leaves A1 at B1's previous value, and a second pass changes it. *)
Theorem one_pass_in_insertion_order (h : Host) (st : State) :
  NoDup (keys (data st)) ->
  let after := recalculateAll h st in
  (exists log,
     cellText after = (cellText st ++ log)%list /\
     map fst log = formulaKeys (data st) /\
     forall k dv, In (k, dv) log ->
       exists cell, lookup k (data after) = Some cell /\ displayValue cell = dv) /\
  keys (data after) = keys (data st) /\
  (forall k cell, lookup k (data st) = Some cell -> formula cell = "" ->
     lookup k (data after) = Some cell) /\
  (forall ks1 k ks2 cell,
     keys (data st) = (ks1 ++ k :: ks2)%list ->
     lookup k (data st) = Some cell -> formula cell <> "" ->
     let seen := data (pass h ks1 st) in
     (forall j, In j (k :: ks2) -> lookup j seen = lookup j (data st)) /\
     exists cell',
       lookup k (data after) = Some cell' /\
       formula cell' = formula cell /\ format cell' = format cell /\
       value cell' = evaluateFormula h seen (formula cell) k /\
       displayValue cell' = formatValue h (value cell') (format cell)) /\
  (forall st0 cellId input, isEditing st0 = true ->
     finishEditing h st0 cellId input =
     recalculateAll h (committedState h st0 cellId input)) /\
  (forall st0 cellId, isEditing st0 = false -> parseCellId cellId <> None ->
     clearCell h st0 cellId = recalculateAll h (clearedState st0 cellId)) /\
  (let s0 := edits refHost [("A1", "=B1"); ("B1", "=C1")] in
   let s1 := edit refHost s0 ("C1", "5") in
   keys (data s1) = ["A1"; "B1"; "C1"] /\
   option_map value (lookup "B1" (data s0)) = Some (VNum PrimFloat.zero) /\
   option_map value (lookup "B1" (data s1)) = Some (VNum (floatOfZ 5)) /\
   option_map value (lookup "A1" (data s1)) = Some (VNum PrimFloat.zero) /\
   option_map value (lookup "A1" (data (recalculateAll refHost s1)))
     = Some (VNum (floatOfZ 5))).
Proof.
  intros Hnd after. unfold after, recalculateAll.
  repeat apply conj.
  - now apply pass_log.
  - apply pass_frame.
  - intros k cell Hk Hf. now apply pass_keeps_plain.
  - intros ks1 k ks2 cell Hkeys Hk Hf. rewrite Hkeys.
    apply pass_cell; [now rewrite <- Hkeys | assumption | assumption].
  - intros st0 cellId input He. now apply finishEditing_committed.
  - intros st0 cellId He Hp. unfold clearCell, clearedState.
    destruct (parseCellId cellId); [|congruence]. now rewrite He.
  - vm_compute. reflexivity.
  - vm_compute. reflexivity.
  - vm_compute. reflexivity.
  - vm_compute. reflexivity.
  - vm_compute. reflexivity.
Qed.

Lemma one_pass_in_insertion_order_witness :
  let st := committedState refHost
              (withEditing true (edits refHost [("A1", "=B1"); ("B1", "=C1")]))
              "C1" "5" in
  exists log,
    cellText (recalculateAll refHost st) = (cellText st ++ log)%list /\
    map fst log = ["A1"; "B1"].
Proof.
  cbv zeta.
  destruct (one_pass_in_insertion_order refHost
              (committedState refHost
                 (withEditing true (edits refHost [("A1", "=B1"); ("B1", "=C1")]))
                 "C1" "5")) as ((log & Hlog & Hkeys & _) & _).
  - apply committedState_edits_NoDup.
  - exists log. split; [exact Hlog|]. rewrite Hkeys. vm_compute. reflexivity.
Defined.

(** ** Formatting a cell *)

Lemma formatValue_percent_half (h : Host) :
  formatValue h (VNum 0.5%float) (Some "percent") = VStr "50.0%" /\
  formatValue h (VStr "0.5") (Some "percent") = VStr "50.0%".
Proof. split; vm_compute; reflexivity. Qed.

(** C7. Applying a format to the selected cell creates its record when
    absent (with empty value and formula), sets its format, recomputes its
    display value, and changes nothing else: value and formula of the cell,
    every other cell, and the rest of the state are as before.  With format
    [percent] on a value of 0.5 the display value is ["50.0%"] and the value
    is still 0.5. *)
Theorem applyFormat_is_presentational (h : Host) (st : State) (sel ty : string) :
  selectedCell st = Some sel -> sel <> "" ->
  let old := match lookup sel (data st) with Some c => c | None => emptyCell end in
  let st' := applyFormat h st ty in
  (exists cell,
     lookup sel (data st') = Some cell /\
     value cell = value old /\ formula cell = formula old /\
     format cell = Some ty /\
     displayValue cell = formatValue h (value old) (Some ty)) /\
  (lookup sel (data st) = None -> value old = VStr "" /\ formula old = "") /\
  (forall k, k <> sel -> lookup k (data st') = lookup k (data st)) /\
  (isEditing st' = isEditing st /\ rows st' = rows st /\ cols st' = cols st /\
   selectedCell st' = selectedCell st) /\
  (ty = "percent" -> value old = VNum 0.5%float \/ value old = VStr "0.5" ->
   exists cell,
     lookup sel (data st') = Some cell /\
     displayValue cell = VStr "50.0%" /\ value cell = value old).
Proof.
  intros Hsel Hne old st'. apply isEmpty_false in Hne.
  assert (Hnew : lookup sel (data st') =
            Some {| value := value old; formula := formula old; format := Some ty;
                    displayValue := formatValue h (value old) (Some ty) |}).
  { unfold st', applyFormat. rewrite Hsel, Hne. cbn [data writeText withData].
    rewrite lookup_assign_same. reflexivity. }
  repeat apply conj.
  - eexists. split; [exact Hnew|]. repeat split.
  - unfold old. now intros ->.
  - intros k Hk. unfold st', applyFormat. rewrite Hsel, Hne.
    cbn [data writeText withData]. now apply lookup_assign_other.
  - unfold st', applyFormat. now rewrite Hsel, Hne.
  - unfold st', applyFormat. now rewrite Hsel, Hne.
  - unfold st', applyFormat. now rewrite Hsel, Hne.
  - unfold st', applyFormat. now rewrite Hsel, Hne.
  - intros -> Hv. eexists. split; [exact Hnew|]. split; [|reflexivity].
    cbn [displayValue].
    destruct (formatValue_percent_half h) as [Hnum Hstr].
    destruct Hv as [Hv | Hv]; rewrite Hv; assumption.
Qed.

Lemma applyFormat_is_presentational_witness :
  let st := withSelected (Some "A1") (edits refHost [("A1", "0.5")]) in
  exists cell,
    lookup "A1" (data (applyFormat refHost st "percent")) = Some cell /\
    displayValue cell = VStr "50.0%" /\ value cell = VStr "0.5".
Proof.
  cbv zeta.
  destruct (applyFormat_is_presentational refHost
              (withSelected (Some "A1") (edits refHost [("A1", "0.5")]))
              "A1" "percent" eq_refl ltac:(discriminate)) as (_ & _ & _ & _ & H).
  destruct (H eq_refl) as (cell & Hc & Hd & Hv).
  - right. reflexivity.
  - exists cell. split; [exact Hc|]. split; [exact Hd|]. rewrite Hv. reflexivity.
Defined.

(** ** Grid dimensions *)

Lemma resize_inBounds (st : State) (op : ResizeOp) :
  inBounds st -> inBounds (resize st op).
Proof.
  unfold inBounds. cbn [maxRows maxCols CONFIG]. intros [Hr Hc].
  destruct op; cbn [resize]; unfold addRow, addCol, deleteRow, deleteCol;
    cbn [maxRows maxCols CONFIG].
  - cbn [rows cols withRows]. lia.
  - cbn [rows cols withCols]. lia.
  - destruct (Z.ltb_spec 1 (rows st)); cbn [rows cols withRows]; lia.
  - destruct (Z.ltb_spec 1 (cols st)); cbn [rows cols withCols]; lia.
Qed.

Lemma resize_keeps_data (st : State) (op : ResizeOp) :
  data (resize st op) = data st.
Proof.
  destruct op; cbn [resize]; unfold addRow, addCol, deleteRow, deleteCol;
    try reflexivity.
  - destruct (1 <? rows st); reflexivity.
  - destruct (1 <? cols st); reflexivity.
Qed.

Lemma resizes_inBounds (ops : list ResizeOp) : forall st,
  inBounds st ->
  inBounds (fold_left resize ops st) /\ data (fold_left resize ops st) = data st.
Proof.
  induction ops as [|op ops IH]; intros st Hst; cbn [fold_left]; [now split|].
  destruct (IH (resize st op) (resize_inBounds st op Hst)) as [Hb Hd].
  split; [exact Hb|]. now rewrite Hd, resize_keeps_data.
Qed.

(** C8. From the default dimensions, after every sequence of add-row,
    add-column, delete-row and delete-column requests the row count is in
    [1, 1000] and the column count in [1, 52]; a request at a bound leaves
    the count at the bound, any other request moves it by one; the cell
    records are not touched. *)
Theorem grid_dimensions_stay_in_bounds (ops : list ResizeOp) :
  let st := fold_left resize ops initialState in
  (1 <= rows st <= maxRows CONFIG /\ 1 <= cols st <= maxCols CONFIG) /\
  (maxRows CONFIG = 1000 /\ maxCols CONFIG = 52) /\
  rows (addRow st) = (if rows st =? 1000 then 1000 else rows st + 1) /\
  cols (addCol st) = (if cols st =? 52 then 52 else cols st + 1) /\
  rows (deleteRow st) = (if rows st =? 1 then 1 else rows st - 1) /\
  cols (deleteCol st) = (if cols st =? 1 then 1 else cols st - 1) /\
  data st = data initialState.
Proof.
  intros st.
  destruct (resizes_inBounds ops initialState) as [[Hr Hc] Hd].
  { unfold inBounds. cbn. lia. }
  fold st in Hr, Hc, Hd. cbn [maxRows maxCols CONFIG] in *.
  split; [now split|]. split; [now split|].
  unfold addRow, addCol, deleteRow, deleteCol. cbn [maxRows maxCols CONFIG].
  repeat split.
  - cbn [rows withRows]. destruct (Z.eqb_spec (rows st) 1000); lia.
  - cbn [cols withCols]. destruct (Z.eqb_spec (cols st) 52); lia.
  - destruct (Z.ltb_spec 1 (rows st)), (Z.eqb_spec (rows st) 1);
      cbn [rows withRows]; lia.
  - destruct (Z.ltb_spec 1 (cols st)), (Z.eqb_spec (cols st) 1);
      cbn [cols withCols]; lia.
  - exact Hd.
Qed.

(** ** Loading a snapshot *)

(** C6 fails as stated: a snapshot with 5000 rows and -3 columns is restored
    with exactly these counts, outside [1, 1000] and [1, 52], by both load
    operations. *)
Lemma load_keeps_out_of_range_dimensions :
  let snap := {| snapTitle := None; snapData := None;
                 snapRows := Some 5000; snapCols := Some (-3) |} in
  rows (loadFromLocalStorage (Parsed snap) initialState) = 5000 /\
  cols (loadFromLocalStorage (Parsed snap) initialState) = -3 /\
  rows (loadFromFilesystem (File (Some snap)) initialState) = 5000 /\
  cols (loadFromFilesystem (File (Some snap)) initialState) = -3 /\
  ~ (1 <= rows (loadFromLocalStorage (Parsed snap) initialState) <= maxRows CONFIG) /\
  ~ (1 <= cols (loadFromLocalStorage (Parsed snap) initialState) <= maxCols CONFIG).
Proof.
  cbv zeta. repeat split; try reflexivity; cbn; lia.
Qed.

(** C6, as the script has it.  Both load operations restore the row and
    column counts of the snapshot as they are stored, with no check against
    the configured bounds; a count that is missing (or 0) becomes the default
    (50 rows, 26 columns) and a missing data mapping the empty mapping.
    When there is nothing to load, or it cannot be parsed, the state is left
    as it was. *)
Theorem load_restores_dimensions_as_stored (snap : Snapshot) (st : State) :
  let st' := loadFromLocalStorage (Parsed snap) st in
  loadFromFilesystem (File (Some snap)) st = st' /\
  (forall n, snapRows snap = Some n -> n <> 0 -> rows st' = n) /\
  (forall n, snapCols snap = Some n -> n <> 0 -> cols st' = n) /\
  (snapRows snap = None \/ snapRows snap = Some 0 -> rows st' = 50) /\
  (snapCols snap = None \/ snapCols snap = Some 0 -> cols st' = 26) /\
  (forall d, snapData snap = Some d -> data st' = d) /\
  (snapData snap = None -> data st' = []) /\
  (loadFromLocalStorage NoItem st = st /\ loadFromLocalStorage Unparsable st = st) /\
  (loadFromFilesystem Rejected st = st /\ loadFromFilesystem NoFile st = st /\
   loadFromFilesystem (File None) st = st).
Proof.
  cbv zeta. unfold loadFromLocalStorage, loadFromFilesystem, restore, orDefault.
  cbn [rows cols data withData withRows withCols defaultRows defaultCols CONFIG].
  repeat split.
  - intros n -> Hn. destruct (Z.eqb_spec n 0); [contradiction | reflexivity].
  - intros n -> Hn. destruct (Z.eqb_spec n 0); [contradiction | reflexivity].
  - intros [-> | ->]; reflexivity.
  - intros [-> | ->]; reflexivity.
  - now intros d ->.
  - now intros ->.
Qed.

Lemma load_restores_dimensions_as_stored_witness :
  let snap := {| snapTitle := None; snapData := None;
                 snapRows := Some 5000; snapCols := None |} in
  rows (loadFromLocalStorage (Parsed snap) initialState) = 5000 /\
  cols (loadFromLocalStorage (Parsed snap) initialState) = 26 /\
  data (loadFromLocalStorage (Parsed snap) initialState) = [].
Proof.
  cbv zeta.
  destruct (load_restores_dimensions_as_stored
              {| snapTitle := None; snapData := None;
                 snapRows := Some 5000; snapCols := None |} initialState)
    as (_ & Hr & _ & _ & Hc & _ & Hd & _).
  split; [apply (Hr 5000); [reflexivity | discriminate]|].
  split; [apply Hc; now left | now apply Hd].
Defined.

(** ** Labels with leading zeros *)

Lemma allDigits_zeros (k : nat) : allDigits (zeros k) = true.
Proof. induction k as [|k IH]; [reflexivity | exact IH]. Qed.

Lemma parseIntAcc_zeros (k : nat) : parseIntAcc 0 (zeros k) = 0.
Proof. induction k as [|k IH]; [reflexivity | exact IH]. Qed.

Lemma append_not_empty_r (s t : string) : t <> "" -> s ++ t <> "".
Proof. destruct s; [trivial | discriminate]. Qed.

(** C10. [parseCellId] accepts row digits with leading zeros and reads
    them as the same address: for letters L and digits D, the labels
    [L 0...0 D] and [L D] parse to the same (row, column), which is the
    column of L and the row D - 1 (stated where the script's index
    arithmetic is exact, for numerals below 2^53).  So it is not injective
    on the labels it accepts (["A01"] and ["A1"] both give row 0,
    column 0), and [getCellId] after [parseCellId] does not give ["A01"]
    back. *)
Theorem leading_zeros_are_accepted (letters digits : string) (k : nat) :
  allUpper letters = true -> letters <> "" ->
  allDigits digits = true -> digits <> "" ->
  parseCellId (letters ++ zeros k ++ digits) = parseCellId (letters ++ digits) /\
  (exactIndex (letterToCol letters) -> exactIndex (parseInt digits - 1) ->
   parseCellId (letters ++ zeros k ++ digits) =
     Some {| col := letterToCol letters; row := parseInt digits - 1 |} /\
   parseCellId (letters ++ digits) =
     Some {| col := letterToCol letters; row := parseInt digits - 1 |}) /\
  (forall n, 0 <= n -> exactIndex (letterToCol letters) -> exactIndex (n - 1) ->
     parseCellId (letters ++ zeros k ++ intToString n) =
       Some {| col := letterToCol letters; row := n - 1 |}) /\
  (parseCellId "A01" = Some {| col := 0; row := 0 |} /\
   parseCellId "A1" = Some {| col := 0; row := 0 |} /\
   "A01" <> "A1" /\ getCellId 0 0 = "A1").
Proof.
  intros Hu Hl Hd Hn.
  assert (Hzeros : forall ds, allDigits ds = true -> ds <> "" ->
            parseCellId (letters ++ zeros k ++ ds) =
            Some {| col := letterToCol letters; row := parseInt ds - 1 |}).
  { intros ds Hds Hne. unfold parseCellId.
    rewrite matchCellId_app; trivial.
    - unfold parseInt.
      rewrite parseIntAcc_app, parseIntAcc_zeros by apply allDigits_zeros.
      reflexivity.
    - now apply append_not_empty_r.
    - now rewrite allDigits_app, allDigits_zeros. }
  assert (Hplain : parseCellId (letters ++ digits) =
            Some {| col := letterToCol letters; row := parseInt digits - 1 |}).
  { unfold parseCellId. now rewrite matchCellId_app. }
  split; [rewrite Hplain; now apply Hzeros|]. split; [|split].
  - intros _ _. split; [now apply Hzeros | exact Hplain].
  - intros n Hn0 _ _. destruct (intToString_nonneg n Hn0) as (Ha & Hne & Hp).
    rewrite Hzeros, Hp; trivial.
  - repeat split; try reflexivity. discriminate.
Qed.

Lemma leading_zeros_are_accepted_witness :
  parseCellId "AB007" = parseCellId "AB7" /\
  parseCellId "AB7" = Some {| col := 27; row := 6 |}.
Proof.
  destruct (leading_zeros_are_accepted "AB" "7" 2 eq_refl ltac:(discriminate)
              eq_refl ltac:(discriminate)) as (H1 & H2 & _).
  split; [exact H1 | exact (proj2 (H2 eq_refl eq_refl))].
Defined.

(** ** Order of binary64 numbers

    [PrimFloat.ltb] is specified by [SFltb] on [spec_float]; there it is a
    strict order on everything but NaN. *)











(** ** [Math.min] and [Math.max] on numbers that are not NaN *)








(** ** The range aggregator *)



(** A loop that pushes onto an accumulator collects what each round adds. *)
Lemma fold_left_push (A B : Type) (g : list B -> A -> list B) (f : A -> list B) :
  (forall acc x, g acc x = (acc ++ f x)%list) ->
  forall l acc, fold_left g l acc = (acc ++ flat_map f l)%list.
Proof.
  intros Hg l. induction l as [|x l IH]; intros acc; cbn.
  - now rewrite app_nil_r.
  - now rewrite IH, Hg, <- app_assoc.
Qed.

Lemma flat_map_map (A B C : Type) (f : B -> list C) (g : A -> B) (l : list A) :
  flat_map f (map g l) = flat_map (fun x => f (g x)) l.
Proof. induction l as [|x l IH]; cbn; [reflexivity | now rewrite IH]. Qed.

Lemma flat_map_flat_map (A B C : Type) (f : B -> list C) (g : A -> list B) (l : list A) :
  flat_map f (flat_map g l) = flat_map (fun x => flat_map f (g x)) l.
Proof.
  induction l as [|x l IH]; cbn; [reflexivity|].
  now rewrite flat_map_app, IH.
Qed.

(** The two nested loops of [getRangeValues] collect the numeric values of
    the span, row by row. *)
Lemma getRangeValues_spec (d : CellStore) (start end_ : string) (a b : CellPos) :
  parseCellId start = Some a -> parseCellId end_ = Some b ->
  getRangeValues d start end_ = numericValues d (spanCells a b).
Proof.
  intros Ha Hb. unfold getRangeValues, numericValues, spanCells.
  rewrite Ha, Hb, flat_map_flat_map.
  rewrite (fold_left_push _ _ _
             (fun r => flat_map (fun c => numericValue d (getCellId r c))
                         (loopRange (Z.min (col a) (col b)) (Z.max (col a) (col b))))).
  - cbn [app]. apply flat_map_ext. intros r. now rewrite flat_map_map.
  - intros acc r. apply fold_left_push. intros acc' c. unfold numericValue.
    destruct (lookup (getCellId r c) d) as [cell|]; [|now rewrite app_nil_r].
    destruct (PrimFloat.is_nan (parseFloatOf (value cell)));
      [now rewrite app_nil_r | reflexivity].
Qed.

Lemma In_numericValues (d : CellStore) (cellIds : list string) (x : float) :
  In x (numericValues d cellIds) <->
  exists cellId cell,
    In cellId cellIds /\ lookup cellId d = Some cell /\
    parseFloatOf (value cell) = x /\ PrimFloat.is_nan x = false.
Proof.
  unfold numericValues. rewrite in_flat_map. split.
  - intros (cellId & Hin & Hx). unfold numericValue in Hx.
    destruct (lookup cellId d) as [cell|] eqn:Hc; [|destruct Hx].
    destruct (PrimFloat.is_nan (parseFloatOf (value cell))) eqn:Hnan; [destruct Hx|].
    destruct Hx as [<-|[]]. now exists cellId, cell.
  - intros (cellId & cell & Hin & Hc & <- & Hnan). exists cellId. split; [exact Hin|].
    unfold numericValue. rewrite Hc, Hnan. now left.
Qed.

Lemma numericValues_noNaN (d : CellStore) (cellIds : list string) :
  noNaN (numericValues d cellIds).
Proof.
  apply Forall_forall. intros x Hx.
  apply In_numericValues in Hx as (_ & _ & _ & _ & _ & H). exact H.
Qed.







(** ** Address codec: from labels back to labels *)

Lemma fromCharCode_charCode (c : ascii) : fromCharCode (charCode c) = c.
Proof.
  unfold fromCharCode, charCode. rewrite N2Z.id. apply ascii_N_embedding.
Qed.

Lemma string_snoc (s : string) (c : ascii) :
  exists s' c', String c s = s' ++ String c' "" /\ String.length s' = String.length s.
Proof.
  revert c. induction s as [|d s IH]; intros c.
  - exists "", c. split; reflexivity.
  - destruct (IH d) as (s' & c' & Heq & Hlen).
    exists (String c s'), c'. simpl. rewrite Heq, Hlen. split; reflexivity.
Qed.

(** Induction on a string from its last character *)
Lemma string_snoc_ind (P : string -> Prop) :
  P "" -> (forall s c, P s -> P (s ++ String c "")) -> forall s, P s.
Proof.
  intros Hnil Hsnoc s.
  remember (String.length s) as n eqn:Hn. revert s Hn.
  induction n as [|n IH]; intros s Hn.
  - destruct s; [exact Hnil | discriminate].
  - destruct s as [|c s]; [discriminate|].
    destruct (string_snoc s c) as (s' & c' & Heq & Hlen).
    rewrite Heq. apply Hsnoc, IH. simpl in Hn. congruence.
Qed.

Lemma isUpper_code (c : ascii) : isUpper c = true -> 65 <= charCode c <= 90.
Proof.
  unfold isUpper. intros H. apply andb_prop in H as [H1 H2].
  apply Z.leb_le in H1, H2. lia.
Qed.

Lemma isDigit_code (c : ascii) : isDigit c = true -> 48 <= charCode c <= 57.
Proof.
  unfold isDigit. intros H. apply andb_prop in H as [H1 H2].
  apply Z.leb_le in H1, H2. lia.
Qed.

Lemma letterToCol_loop_snoc (s : string) (c : ascii) :
  letterToCol_loop 0 (s ++ String c "") = letterToCol_loop 0 s * 26 + (charCode c - 64).
Proof. now rewrite letterToCol_loop_app. Qed.

(** A run of upper-case letters reads as a number that is at least 1 as soon
    as there is a letter. *)
Lemma letterToCol_loop_pos (s : string) :
  allUpper s = true ->
  0 <= letterToCol_loop 0 s /\ (s <> "" -> 1 <= letterToCol_loop 0 s).
Proof.
  induction s as [|s c IH] using string_snoc_ind; intros Hup.
  - simpl. split; [lia | congruence].
  - rewrite allUpper_app in Hup. apply andb_prop in Hup as [Hs Hc].
    simpl in Hc. rewrite andb_true_r in Hc. apply isUpper_code in Hc.
    destruct (IH Hs) as [H0 _]. rewrite letterToCol_loop_snoc. lia.
Qed.

(** The loop of [colToLetter] writes back the letters [letterToCol] read. *)
Lemma colToLetter_loop_inverse (s : string) :
  allUpper s = true -> s <> "" ->
  forall fuel letter, letterToCol_loop 0 s - 1 < Z.of_nat fuel ->
    colToLetter_loop fuel (letterToCol_loop 0 s - 1) letter = s ++ letter.
Proof.
  induction s as [|s c IH] using string_snoc_ind; intros Hup Hne fuel letter Hfuel;
    [congruence|].
  rewrite allUpper_app in Hup. apply andb_prop in Hup as [Hs Hc].
  simpl in Hc. rewrite andb_true_r in Hc. apply isUpper_code in Hc.
  destruct (letterToCol_loop_pos s Hs) as [Hq0 Hq1].
  rewrite letterToCol_loop_snoc in *.
  set (q := letterToCol_loop 0 s) in *.
  set (d := charCode c - 64) in *.
  assert (Hdiv : (q * 26 + d - 1) / 26 = q).
  { symmetry. apply (Z.div_unique _ 26 q (d - 1)); lia. }
  assert (Hmod : Z.rem (q * 26 + d - 1) 26 = d - 1).
  { rewrite Z.rem_mod_nonneg by lia.
    symmetry. apply (Z.mod_unique _ 26 q (d - 1)); lia. }
  destruct fuel as [|fuel]; [lia|].
  cbn [colToLetter_loop].
  destruct (Z.leb_spec 0 (q * 26 + d - 1)) as [_|]; [|lia].
  rewrite Hdiv, Hmod.
  replace (65 + (d - 1)) with (charCode c) by (unfold d; lia).
  rewrite fromCharCode_charCode.
  destruct s as [|a s'].
  - (* the first letter: the loop stops at -1 *)
    simpl in q. subst q. simpl.
    destruct fuel; reflexivity.
  - rewrite IH; [| assumption | discriminate | lia].
    apply append_assoc_char.
Qed.

Lemma colToLetter_letterToCol (letters : string) :
  allUpper letters = true -> letters <> "" ->
  colToLetter (letterToCol letters) = letters.
Proof.
  intros Hup Hne. unfold colToLetter, letterToCol.
  destruct (letterToCol_loop_pos letters Hup) as [_ H1]. specialize (H1 Hne).
  rewrite colToLetter_loop_inverse by (assumption || lia).
  apply append_empty_r.
Qed.

Lemma parseIntAcc_ge (s : string) (acc : Z) : 0 <= acc -> acc <= parseIntAcc acc s.
Proof.
  revert acc. induction s as [|c s IH]; simpl; intros acc Hacc; [lia|].
  destruct (isDigit c) eqn:Hc; [|lia].
  apply isDigit_code in Hc.
  specialize (IH (acc * 10 + (charCode c - 48)) ltac:(lia)). lia.
Qed.

Lemma zero_char (a : ascii) : a <> "0"%char -> charCode a <> 48.
Proof.
  intros Ha Hcode. apply Ha.
  rewrite <- (fromCharCode_charCode a), Hcode. reflexivity.
Qed.

(** A numeral of two or more digits without a leading zero is at least 1
    before its last digit. *)
Lemma noLeadingZero_snoc (s : string) (c : ascii) :
  s <> "" -> allDigits s = true -> noLeadingZero (s ++ String c "") = true ->
  noLeadingZero s = true /\ 1 <= parseIntAcc 0 s.
Proof.
  intros Hne Hd Hz. destruct s as [|a s']; [congruence|].
  simpl in Hd. apply andb_prop in Hd as [Ha Hs'].
  assert (Hnz : a <> "0"%char).
  { intros ->. simpl in Hz. destruct s'; discriminate. }
  split.
  - destruct a as [[] [] [] [] [] [] [] []]; try reflexivity. congruence.
  - cbn [parseIntAcc]. rewrite Ha. pose proof (zero_char a Hnz) as Hcode.
    apply isDigit_code in Ha.
    pose proof (parseIntAcc_ge s' (0 * 10 + (charCode a - 48)) ltac:(lia)). lia.
Qed.

(** [decimalDigits] writes back the numeral [parseInt] read, when it has no
    superfluous leading zero. *)
Lemma decimalDigits_parseIntAcc (s : string) :
  allDigits s = true -> s <> "" -> noLeadingZero s = true ->
  forall fuel, parseIntAcc 0 s <= Zpos fuel ->
    decimalDigits fuel (parseIntAcc 0 s) = s.
Proof.
  induction s as [|s c IH] using string_snoc_ind; intros Hd Hne Hz fuel Hfuel;
    [congruence|].
  rewrite allDigits_app in Hd. apply andb_prop in Hd as [Hs Hc].
  simpl in Hc. rewrite andb_true_r in Hc.
  rewrite parseIntAcc_app in * by assumption.
  cbn [parseIntAcc] in *. rewrite Hc in *.
  apply isDigit_code in Hc.
  set (p := parseIntAcc 0 s) in *.
  assert (Hp0 : 0 <= p) by (apply (parseIntAcc_ge s 0); lia).
  assert (Hmod : (p * 10 + (charCode c - 48)) mod 10 = charCode c - 48).
  { symmetry. apply (Z.mod_unique _ 10 p); lia. }
  assert (Hdiv : (p * 10 + (charCode c - 48)) / 10 = p).
  { symmetry. apply (Z.div_unique _ 10 p (charCode c - 48)); lia. }
  assert (Hlast : String (fromCharCode (48 + (p * 10 + (charCode c - 48)) mod 10)) ""
                  = String c "").
  { rewrite Hmod. replace (48 + (charCode c - 48)) with (charCode c) by lia.
    now rewrite fromCharCode_charCode. }
  destruct s as [|a s'].
  - (* a single digit *)
    simpl in p. subst p.
    destruct fuel; cbn [decimalDigits]; rewrite Hlast;
      try reflexivity;
      (destruct (Z.ltb_spec (0 * 10 + (charCode c - 48)) 10); [reflexivity | lia]).
  - destruct (noLeadingZero_snoc (String a s') c ltac:(discriminate) Hs Hz)
      as [Hz' Hp1].
    fold p in Hp1.
    destruct fuel as [f|f|]; [| |lia];
      cbn [decimalDigits]; rewrite Hlast, Hdiv;
      (destruct (Z.ltb_spec (p * 10 + (charCode c - 48)) 10); [lia|]);
      (rewrite IH; [reflexivity | assumption | discriminate | assumption | lia]).
Qed.

Lemma intToString_parseInt (digits : string) :
  allDigits digits = true -> digits <> "" -> noLeadingZero digits = true ->
  intToString (parseInt digits) = digits.
Proof.
  intros Hd Hne Hz. unfold intToString, parseInt.
  pose proof (parseIntAcc_ge digits 0 ltac:(lia)) as H0.
  destruct (Z.ltb_spec (parseIntAcc 0 digits) 0) as [|_]; [lia|].
  apply decimalDigits_parseIntAcc; try assumption.
  destruct (parseIntAcc 0 digits); simpl; lia.
Qed.

Lemma spanUpper_spec (s : string) :
  s = fst (spanUpper s) ++ snd (spanUpper s) /\ allUpper (fst (spanUpper s)) = true.
Proof.
  induction s as [|c s [IH1 IH2]]; simpl; [split; reflexivity|].
  destruct (isUpper c) eqn:Hc; [|split; reflexivity].
  destruct (spanUpper s) as [a b]. simpl in *.
  rewrite Hc, IH2. split; [now rewrite <- IH1 | reflexivity].
Qed.

(** The pattern of [parseCellId] matches only letters followed by digits. *)
Lemma matchCellId_inv (cellId letters digits : string) :
  matchCellId cellId = Some (letters, digits) ->
  cellId = letters ++ digits /\ letters <> "" /\ digits <> "" /\
  allUpper letters = true /\ allDigits digits = true.
Proof.
  unfold matchCellId. intros H.
  destruct (spanUpper_spec cellId) as [Heq Hup].
  destruct (spanUpper cellId) as [a b]. simpl in *.
  destruct a as [|x a]; [discriminate|].
  destruct b as [|y b]; [discriminate|].
  destruct (allDigits (String y b)) eqn:Hd; [|discriminate].
  injection H as <- <-.
  repeat split; try assumption; discriminate.
Qed.

(** X1. A label is reproduced from its position: for upper-case letters
    followed by a decimal numeral that has no superfluous leading zero,
    both in the range where the script's index arithmetic is exact (below
    2^53), [parseCellId] gives a position from which [getCellId] rebuilds
    exactly that label (so such labels and positions correspond one to
    one). *)
Theorem label_round_trip (letters digits : string) :
  letters <> "" -> digits <> "" ->
  allUpper letters = true -> allDigits digits = true ->
  noLeadingZero digits = true ->
  exactIndex (letterToCol letters) -> exactIndex (parseInt digits - 1) ->
  exists pos, parseCellId (letters ++ digits) = Some pos /\
              exactPos pos /\
              getCellId (row pos) (col pos) = letters ++ digits.
Proof.
  intros Hl Hd Hup Hdig Hz Hcol Hrow.
  exists {| col := letterToCol letters; row := parseInt digits - 1 |}.
  split; [|split].
  - unfold parseCellId. now rewrite matchCellId_app.
  - split; assumption.
  - unfold getCellId. cbn [row col].
    rewrite colToLetter_letterToCol by assumption.
    replace (parseInt digits - 1 + 1) with (parseInt digits) by lia.
    now rewrite intToString_parseInt.
Qed.

Lemma label_round_trip_witness :
  exists pos, parseCellId ("AZ" ++ "1000") = Some pos /\
              exactPos pos /\
              getCellId (row pos) (col pos) = "AZ" ++ "1000".
Proof.
  apply (label_round_trip "AZ" "1000"); (discriminate || reflexivity).
Defined.

(** X2. What [parseCellId] accepts: a label has a position exactly when it
    is one or more upper-case letters followed by one or more digits and
    nothing else.  For such a label, in the range where the script's index
    arithmetic is exact (numerals below 2^53), the column is that of the
    letters and is never negative, the row is the numeral less one and is
    never below -1. *)
Theorem parseCellId_accepts (cellId : string) :
  (parseCellId cellId <> None <->
   exists letters digits,
     cellId = letters ++ digits /\ letters <> "" /\ digits <> "" /\
     allUpper letters = true /\ allDigits digits = true) /\
  (forall letters digits,
     cellId = letters ++ digits -> letters <> "" -> digits <> "" ->
     allUpper letters = true -> allDigits digits = true ->
     exactIndex (letterToCol letters) -> exactIndex (parseInt digits - 1) ->
     exists pos,
       parseCellId cellId = Some pos /\
       col pos = letterToCol letters /\ row pos = parseInt digits - 1 /\
       0 <= col pos /\ -1 <= row pos).
Proof.
  split; [split|].
  - unfold parseCellId. intros H.
    destruct (matchCellId cellId) as [[letters digits]|] eqn:Hm; [|congruence].
    destruct (matchCellId_inv _ _ _ Hm) as (Heq & Hl & Hd & Hup & Hdig).
    now exists letters, digits.
  - intros (letters & digits & -> & Hl & Hd & Hup & Hdig).
    unfold parseCellId. rewrite matchCellId_app by assumption. discriminate.
  - intros letters digits -> Hl Hd Hup Hdig _ _.
    exists {| col := letterToCol letters; row := parseInt digits - 1 |}.
    destruct (letterToCol_loop_pos letters Hup) as [_ H1]. specialize (H1 Hl).
    pose proof (parseIntAcc_ge digits 0 ltac:(lia)) as H0.
    unfold parseCellId. rewrite matchCellId_app by assumption.
    cbn [row col]. unfold letterToCol, parseInt.
    repeat split; lia.
Qed.
(** ** Sessions: well-formed records, plain edits, settled sheets *)

Lemma lookup_remove_other (k k' : string) (d : CellStore) :
  k' <> k -> lookup k' (remove k d) = lookup k' d.
Proof.
  intros Hne. induction d as [|[k0 c0] d IH]; simpl; [reflexivity|].
  destruct (String.eqb_spec k0 k) as [->|Hk]; simpl; rewrite IH.
  - destruct (String.eqb_spec k k'); [congruence | reflexivity].
  - reflexivity.
Qed.

Lemma In_keys_remove (k k' : string) (d : CellStore) :
  In k' (keys (remove k d)) -> In k' (keys d).
Proof.
  induction d as [|[k0 c0] d IH]; simpl; [tauto|].
  destruct (String.eqb k0 k); simpl; tauto.
Qed.

Lemma NoDup_keys_remove (k : string) (d : CellStore) :
  NoDup (keys d) -> NoDup (keys (remove k d)).
Proof.
  induction d as [|[k0 c0] d IH]; simpl; intros Hnd; [constructor|].
  inversion Hnd as [|? ? Hnin Hnd']; subst.
  destruct (String.eqb k0 k); simpl; [now apply IH|].
  constructor; [|now apply IH].
  intros Hin. apply Hnin. eapply In_keys_remove; eassumption.
Qed.

(** Writing back the record a key already holds changes nothing. *)
Lemma assign_same (k : string) (c : Cell) (d : CellStore) :
  lookup k d = Some c -> assign k c d = d.
Proof.
  induction d as [|[k0 c0] d IH]; simpl; [discriminate|].
  destruct (String.eqb_spec k0 k) as [->|Hk]; intros H.
  - now injection H as ->.
  - now rewrite IH.
Qed.

Lemma startsWith_equals_not_empty (s : string) : startsWith "=" s = true -> s <> "".
Proof. destruct s; [discriminate | discriminate]. Qed.

Section Sessions.
Variable h : Host.

Lemma recalculateCell_keeps_format (st : State) (k k' : string) :
  option_map format (lookup k' (data (recalculateCell h st k))) =
  option_map format (lookup k' (data st)).
Proof.
  destruct (string_dec k' k) as [->|Hne].
  - destruct (lookup k (data st)) as [cell|] eqn:Hk.
    + destruct (string_dec (formula cell) "") as [Hf|Hf].
      * now rewrite (recalculateCell_plain h st k cell Hk Hf), Hk.
      * destruct (recalculateCell_formula h st k cell Hk Hf) as [-> _].
        reflexivity.
    + now rewrite (recalculateCell_absent h st k Hk), Hk.
  - now rewrite recalculateCell_other.
Qed.

Lemma pass_keeps_format (ks : list string) (k : string) : forall st,
  option_map format (lookup k (data (pass h ks st))) =
  option_map format (lookup k (data st)).
Proof.
  induction ks as [|k0 ks IH]; intros st; simpl; [reflexivity|].
  unfold pass in *. rewrite IH. apply recalculateCell_keeps_format.
Qed.

(** The record a formula evaluation fills in is well formed. *)
Lemma wellFormed_evaluated (d : CellStore) (f k : string) (fmt : option string) :
  startsWith "=" f = true ->
  wellFormed h {| value := evaluateFormula h d f k; formula := f; format := fmt;
                  displayValue := formatValue h (evaluateFormula h d f k) fmt |}.
Proof.
  intros Hf. unfold wellFormed. cbn [value formula format displayValue].
  split; [reflexivity|]. split.
  - intros ->. discriminate.
  - intros _. split; [assumption|]. intros Hnan.
    destruct (evaluateFormula_cases h d f k)
      as [[_ He] | [(r & _ & _ & He) | (r & _ & Hr & He)]];
      try assumption.
    rewrite He in Hnan. congruence.
Qed.

Lemma recalculateCell_wellFormed (st : State) (k : string) :
  allWellFormed h (data st) -> allWellFormed h (data (recalculateCell h st k)).
Proof.
  intros Hall k' cell' Hl.
  destruct (string_dec k' k) as [->|Hne].
  - destruct (lookup k (data st)) as [cell|] eqn:Hk.
    + destruct (string_dec (formula cell) "") as [Hf|Hf].
      * rewrite (recalculateCell_plain h st k cell Hk Hf) in Hl.
        now apply (Hall k).
      * destruct (recalculateCell_formula h st k cell Hk Hf) as [Hnew _].
        rewrite Hnew in Hl. injection Hl as <-.
        apply wellFormed_evaluated.
        destruct (Hall k cell Hk) as (_ & _ & H3). now apply H3.
    + rewrite (recalculateCell_absent h st k Hk) in Hl. now apply (Hall k).
  - rewrite recalculateCell_other in Hl by assumption. now apply (Hall k').
Qed.

Lemma pass_wellFormed (ks : list string) : forall st,
  allWellFormed h (data st) -> allWellFormed h (data (pass h ks st)).
Proof.
  induction ks as [|k ks IH]; intros st Hall; simpl; [assumption|].
  apply IH. now apply recalculateCell_wellFormed.
Qed.

Lemma committedCell_wellFormed (d : CellStore) (cellId input : string) :
  allWellFormed h d -> wellFormed h (committedCell h d cellId input).
Proof.
  intros Hall. unfold committedCell.
  destruct (startsWith "=" input) eqn:Hs.
  - cbv zeta. apply wellFormed_evaluated. assumption.
  - cbv zeta. unfold wellFormed. cbn [value formula format displayValue
      setDisplayValue setValue setFormula]. split; [reflexivity|]. split.
    + intros _. now exists input.
    + intros Hf. congruence.
Qed.

Lemma assign_wellFormed (d : CellStore) (k : string) (cell : Cell) :
  allWellFormed h d -> wellFormed h cell -> allWellFormed h (assign k cell d).
Proof.
  intros Hall Hc k' cell' Hl.
  destruct (string_dec k' k) as [->|Hne].
  - rewrite lookup_assign_same in Hl. now injection Hl as <-.
  - rewrite lookup_assign_other in Hl by assumption. now apply (Hall k').
Qed.

Lemma remove_wellFormed (d : CellStore) (k : string) :
  allWellFormed h d -> allWellFormed h (remove k d).
Proof.
  intros Hall k' cell' Hl.
  destruct (string_dec k' k) as [->|Hne].
  - rewrite lookup_remove_same in Hl. discriminate.
  - rewrite lookup_remove_other in Hl by assumption. now apply (Hall k').
Qed.

Lemma finishEditing_wellFormed (st : State) (cellId input : string) :
  allWellFormed h (data st) ->
  allWellFormed h (data (finishEditing h st cellId input)).
Proof.
  intros Hall. destruct (isEditing st) eqn:He.
  - rewrite finishEditing_committed by assumption.
    apply pass_wellFormed. unfold committedState. cbn [data writeText withData].
    apply assign_wellFormed; [assumption|].
    now apply committedCell_wellFormed.
  - now rewrite finishEditing_idle.
Qed.

Lemma finishEditing_keys_NoDup (st : State) (cellId input : string) :
  NoDup (keys (data st)) -> NoDup (keys (data (finishEditing h st cellId input))).
Proof.
  intros Hnd. destruct (isEditing st) eqn:He.
  - rewrite finishEditing_committed by assumption.
    unfold recalculateAll.
    destruct (pass_frame h (keys (data (committedState h st cellId input)))
                (committedState h st cellId input)) as (_ & _ & _ & _ & ->).
    unfold committedState. cbn [data writeText withData].
    now apply NoDup_keys_assign.
  - now rewrite finishEditing_idle.
Qed.

Lemma finishEditing_not_editing (st : State) (cellId input : string) :
  isEditing (finishEditing h st cellId input) = false.
Proof.
  destruct (isEditing st) eqn:He.
  - rewrite finishEditing_committed by assumption.
    unfold recalculateAll.
    destruct (pass_frame h (keys (data (committedState h st cellId input)))
                (committedState h st cellId input)) as (-> & _).
    reflexivity.
  - now rewrite finishEditing_idle.
Qed.

Lemma finishEditing_grid (st : State) (cellId input : string) :
  rows (finishEditing h st cellId input) = rows st /\
  cols (finishEditing h st cellId input) = cols st /\
  selectedCell (finishEditing h st cellId input) = selectedCell st.
Proof.
  destruct (isEditing st) eqn:He.
  - rewrite finishEditing_committed by assumption.
    unfold recalculateAll.
    destruct (pass_frame h (keys (data (committedState h st cellId input)))
                (committedState h st cellId input)) as (_ & -> & -> & -> & _).
    repeat split.
  - rewrite finishEditing_idle by assumption. repeat split.
Qed.

(** What one action keeps: no open editor, distinct keys, well-formed
    records. *)
Lemma act_invariant (st : State) (a : Action) :
  isEditing st = false -> NoDup (keys (data st)) -> allWellFormed h (data st) ->
  isEditing (act h st a) = false /\ NoDup (keys (data (act h st a))) /\
  allWellFormed h (data (act h st a)).
Proof.
  intros He Hnd Hall. destruct a as [cellId input | cellId | cellId type | op];
    cbn [act].
  - (* commit *)
    split; [apply finishEditing_not_editing|]. split.
    + apply finishEditing_keys_NoDup. unfold startEditing. now rewrite He.
    + apply finishEditing_wellFormed. unfold startEditing. now rewrite He.
  - (* clear *)
    unfold onCellKeydown. destruct (parseCellId cellId); [|tauto].
    rewrite He. unfold recalculateAll.
    set (st1 := writeText cellId (VStr "") (withData (remove cellId (data st)) st)).
    destruct (pass_frame h (keys (data st1)) st1) as (-> & _ & _ & _ & ->).
    split; [exact He|]. split.
    + now apply NoDup_keys_remove.
    + apply pass_wellFormed. now apply remove_wellFormed.
  - (* format *)
    unfold applyFormat, selectCell. cbn [selectedCell withSelected].
    destruct (isEmpty cellId); [tauto|].
    cbn [isEditing data writeText withData withSelected].
    split; [exact He|]. split; [now apply NoDup_keys_assign|].
    apply assign_wellFormed; [assumption|].
    unfold wellFormed. cbn [value formula format displayValue
      setDisplayValue setFormat].
    split; [reflexivity|].
    destruct (lookup cellId (data st)) as [old|] eqn:Hk.
    + destruct (Hall cellId old Hk) as (_ & H2 & H3). now split.
    + cbn. split; [intros _; now exists "" | congruence].
  - (* resize *)
    rewrite resize_keeps_data.
    split; [|now split].
    destruct op; cbn; unfold addRow, addCol, deleteRow, deleteCol;
      try assumption;
      match goal with |- context [if ?b then _ else _] => destruct b end;
      assumption.
Qed.

End Sessions.

(** The invariant holds along any run of actions. *)
Lemma actions_invariant (h : Host) (actions : list Action) : forall st,
  isEditing st = false /\ NoDup (keys (data st)) /\ allWellFormed h (data st) ->
  isEditing (fold_left (act h) actions st) = false /\
  NoDup (keys (data (fold_left (act h) actions st))) /\
  allWellFormed h (data (fold_left (act h) actions st)).
Proof.
  induction actions as [|a actions IH]; intros st Hst; [exact Hst|].
  simpl. apply IH. destruct Hst as (He & Hnd & Hall).
  now apply act_invariant.
Qed.

Lemma initialState_invariant (h : Host) :
  isEditing initialState = false /\ NoDup (keys (data initialState)) /\
  allWellFormed h (data initialState).
Proof.
  split; [reflexivity|]. split; [constructor|].
  intros k cell Hl. discriminate.
Qed.

Lemma session_NoDup (h : Host) (actions : list Action) :
  NoDup (keys (data (session h actions))).
Proof.
  apply (actions_invariant h actions initialState (initialState_invariant h)).
Qed.

(** X3. Invariants of a session: whatever sequence of commits, clears,
    format clicks and grid resizes is applied to the empty sheet, no editor
    is left open, the keys of the store stay distinct, and every record is
    well formed: its display value is the formatted value, a cell without a
    formula holds a text (typed input is never turned into a number), and a
    formula starts with the equals sign and never holds NaN. *)
Theorem session_keeps_records_well_formed (h : Host) (actions : list Action) :
  isEditing (session h actions) = false /\
  NoDup (keys (data (session h actions))) /\
  allWellFormed h (data (session h actions)).
Proof.
  unfold session. apply actions_invariant, initialState_invariant.
Qed.

(** X4. A text that does not start with the equals sign is stored as
    typed: the record of the edited cell holds that very text as its value
    (a text, not a number), no formula, its former format, and the text's
    formatted form as display value.  The key keeps its place in the store,
    or goes last when it is new; every other cell without a formula is left
    as it was, and no other cell changes its formula or format. *)
Theorem plain_edit_stores_the_text (h : Host) (st : State) (cellId input : string) :
  isEditing st = true -> startsWith "=" input = false ->
  let after := finishEditing h st cellId input in
  let fmt := match lookup cellId (data st) with
             | Some old => format old
             | None => None
             end in
  lookup cellId (data after) =
    Some {| value := VStr input; formula := ""; format := fmt;
            displayValue := formatValue h (VStr input) fmt |} /\
  keys (data after) =
    match lookup cellId (data st) with
    | Some _ => keys (data st)
    | None => (keys (data st) ++ [cellId])%list
    end /\
  (forall k cell, k <> cellId -> lookup k (data st) = Some cell ->
     formula cell = "" -> lookup k (data after) = Some cell) /\
  (forall k, k <> cellId ->
     option_map formula (lookup k (data after)) = option_map formula (lookup k (data st)) /\
     option_map format (lookup k (data after)) = option_map format (lookup k (data st))).
Proof.
  intros He Hs after fmt. subst after.
  rewrite finishEditing_committed by assumption.
  unfold recalculateAll.
  set (st1 := committedState h st cellId input).
  assert (Hcell : lookup cellId (data st1) =
            Some {| value := VStr input; formula := ""; format := fmt;
                    displayValue := formatValue h (VStr input) fmt |}).
  { unfold st1. rewrite committedState_lookup. unfold committedCell.
    rewrite Hs. subst fmt. destruct (lookup cellId (data st)); reflexivity. }
  assert (Hother : forall k, k <> cellId -> lookup k (data st1) = lookup k (data st)).
  { intros k Hk. unfold st1, committedState. cbn [data writeText withData withEditing].
    now apply lookup_assign_other. }
  split; [|split; [|split]].
  - now apply pass_keeps_plain.
  - destruct (pass_frame h (keys (data st1)) st1) as (_ & _ & _ & _ & ->).
    unfold st1, committedState. cbn [data writeText withData withEditing].
    destruct (lookup cellId (data st)) as [old|] eqn:Hold.
    + eapply keys_assign_present; eassumption.
    + now apply keys_assign_absent.
  - intros k cell Hk Hl Hf. apply pass_keeps_plain; [|assumption].
    now rewrite Hother.
  - intros k Hk. rewrite pass_keeps_formula, pass_keeps_format, Hother by assumption.
    split; reflexivity.
Qed.

Lemma plain_edit_stores_the_text_witness :
  let st := withEditing true (session refHost [Commit "B1" "=A1*2"; Format "A1" "number"]) in
  let after := finishEditing refHost st "A1" "1e3" in
  lookup "A1" (data after) =
    Some {| value := VStr "1e3"; formula := ""; format := Some "number";
            displayValue := formatValue refHost (VStr "1e3") (Some "number") |}.
Proof.
  intros st after.
  exact (proj1 (plain_edit_stores_the_text refHost st "A1" "1e3" eq_refl eq_refl)).
Defined.

Section Settled.
Variable h : Host.

(** A step of the pass on a settled sheet writes back what is there. *)
Lemma recalculateCell_settled (st : State) (k : string) :
  settled h (data st) -> data (recalculateCell h st k) = data st.
Proof.
  intros Hs. unfold recalculateCell.
  destruct (lookup k (data st)) as [cell|] eqn:Hk; [|reflexivity].
  destruct (isEmpty (formula cell)) eqn:Hf; [reflexivity|].
  apply isEmpty_false in Hf.
  destruct (Hs k cell Hk Hf) as [Hv Hd].
  cbv zeta. cbn [data writeText withData].
  rewrite <- Hv, <- Hd.
  apply assign_same. rewrite Hk. destruct cell; reflexivity.
Qed.

Lemma pass_settled (ks : list string) : forall st,
  settled h (data st) -> data (pass h ks st) = data st.
Proof.
  induction ks as [|k ks IH]; intros st Hs; simpl; [reflexivity|].
  pose proof (recalculateCell_settled st k Hs) as Hstep.
  unfold pass in *. rewrite IH; [assumption|]. now rewrite Hstep.
Qed.

(** A pass over distinct keys that gives back the store it started from
    found every formula cell of these keys settled. *)
Lemma pass_fixed (ks : list string) : forall st,
  NoDup ks -> data (pass h ks st) = data st ->
  forall k cell, In k ks -> lookup k (data st) = Some cell -> formula cell <> "" ->
    value cell = evaluateFormula h (data st) (formula cell) k /\
    displayValue cell = formatValue h (value cell) (format cell).
Proof.
  induction ks as [|k0 ks IH]; intros st Hnd Hfix k cell Hin Hk Hf; [destruct Hin|].
  inversion Hnd as [|? ? Hnin Hnd']; subst.
  change (pass h (k0 :: ks) st) with (pass h ks (recalculateCell h st k0)) in Hfix.
  assert (Hstep : data (recalculateCell h st k0) = data st).
  { pose proof (pass_untouched h ks k0 (recalculateCell h st k0) Hnin) as Hsame.
    rewrite Hfix in Hsame.
    destruct (lookup k0 (data st)) as [c0|] eqn:Hk0.
    - destruct (string_dec (formula c0) "") as [Hf0|Hf0].
      + now rewrite (recalculateCell_plain h st k0 c0 Hk0 Hf0).
      + destruct (recalculateCell_formula h st k0 c0 Hk0 Hf0) as [Hnew _].
        rewrite Hnew in Hsame.
        unfold recalculateCell. rewrite Hk0.
        apply isEmpty_false in Hf0. rewrite Hf0.
        cbv zeta. cbn [data writeText withData].
        apply assign_same. rewrite Hk0, Hsame. reflexivity.
    - now rewrite (recalculateCell_absent h st k0 Hk0). }
  destruct Hin as [<-|Hin].
  - pose proof (pass_untouched h ks k0 (recalculateCell h st k0) Hnin) as Hsame.
    rewrite Hfix, Hk in Hsame.
    destruct (recalculateCell_formula h st k0 cell Hk Hf) as [Hnew _].
    rewrite Hnew in Hsame. injection Hsame as Hcell.
    rewrite Hcell. cbn [value format displayValue]. split; reflexivity.
  - rewrite <- Hstep. apply IH; try assumption.
    + now rewrite Hstep.
    + now rewrite Hstep.
Qed.

End Settled.

(** X5. When a recalculation changes nothing: on a store with distinct
    keys, [recalculateAll] gives back the very same store exactly when the
    sheet is settled, that is, when every formula cell already holds the
    value its formula evaluates to on this store and the display value
    formatted from it. *)
Theorem recalculation_fixed_point (h : Host) (st : State) :
  NoDup (keys (data st)) ->
  (data (recalculateAll h st) = data st <-> settled h (data st)).
Proof.
  intros Hnd. unfold recalculateAll. split.
  - intros Hfix k cell Hk Hf.
    apply (pass_fixed h (keys (data st)) st Hnd Hfix k cell); try assumption.
    eapply lookup_some_keys; eassumption.
  - apply pass_settled.
Qed.

Lemma recalculation_fixed_point_witness :
  let st := session refHost [Commit "A1" "2"; Commit "B1" "=A1+1"] in
  data (recalculateAll refHost st) = data st /\ settled refHost (data st).
Proof.
  intros st.
  assert (Hfix : data (recalculateAll refHost st) = data st)
    by (vm_compute; reflexivity).
  split; [exact Hfix|].
  apply (recalculation_fixed_point refHost st); [apply session_NoDup | exact Hfix].
Defined.

Lemma keys_remove (k : string) (d : CellStore) :
  keys (remove k d) = filter (fun x => negb (String.eqb x k)) (keys d).
Proof.
  induction d as [|[k0 c0] d IH]; simpl; [reflexivity|].
  destruct (String.eqb k0 k); simpl; now rewrite IH.
Qed.

(** X16. Clearing a cell and typing into it again is not the same as
    overwriting it: Delete removes the record, so the text committed
    afterwards gets a fresh record, without the format the cell had, and
    the key moves to the end of the store, which is the order the
    recalculation pass follows. *)
Theorem clear_then_commit_starts_afresh (h : Host) (st : State) (cellId input : string) :
  isEditing st = false -> parseCellId cellId <> None ->
  let cleared := onCellKeydown h st cellId Delete false false in
  let after := finishEditing h (startEditing cleared cellId) cellId input in
  let others := filter (fun x => negb (String.eqb x cellId)) (keys (data st)) in
  lookup cellId (data cleared) = None /\
  keys (data cleared) = others /\
  keys (data after) = (others ++ [cellId])%list /\
  option_map format (lookup cellId (data after)) = Some None /\
  option_map formula (lookup cellId (data after)) =
    Some (if startsWith "=" input then input else "").
Proof.
  intros He Hp cleared after others.
  set (st1 := writeText cellId (VStr "") (withData (remove cellId (data st)) st)).
  assert (Hcleared : cleared = recalculateAll h st1).
  { subst cleared. unfold onCellKeydown.
    destruct (parseCellId cellId); [|congruence]. now rewrite He. }
  assert (Hnone : lookup cellId (data cleared) = None).
  { rewrite Hcleared. apply pass_keeps_absent. apply lookup_remove_same. }
  assert (Hkeys : keys (data cleared) = others).
  { rewrite Hcleared. unfold recalculateAll.
    destruct (pass_frame h (keys (data st1)) st1) as (_ & _ & _ & _ & ->).
    apply keys_remove. }
  assert (Hidle : isEditing cleared = false).
  { rewrite Hcleared. unfold recalculateAll.
    destruct (pass_frame h (keys (data st1)) st1) as (-> & _). exact He. }
  assert (Hstart : startEditing cleared cellId = withEditing true cleared).
  { unfold startEditing. now rewrite Hidle. }
  subst after. rewrite Hstart.
  rewrite finishEditing_committed by reflexivity.
  set (st2 := committedState h (withEditing true cleared) cellId input).
  assert (Hcell : lookup cellId (data st2) =
                  Some (committedCell h (data cleared) cellId input))
    by exact (committedState_lookup h (withEditing true cleared) cellId input).
  unfold recalculateAll.
  split; [exact Hnone|]. split; [exact Hkeys|]. split; [|split].
  - destruct (pass_frame h (keys (data st2)) st2) as (_ & _ & _ & _ & ->).
    unfold st2, committedState. cbn [data writeText withData withEditing].
    rewrite keys_assign_absent by exact Hnone. now rewrite Hkeys.
  - rewrite pass_keeps_format, Hcell. unfold committedCell. rewrite Hnone.
    destruct (startsWith "=" input); reflexivity.
  - rewrite pass_keeps_formula, Hcell. cbn [option_map].
    now rewrite committedCell_formula.
Qed.

Lemma clear_then_commit_starts_afresh_witness :
  let st := session refHost [Commit "A1" "5"; Format "A1" "percent"; Commit "B1" "=A1"] in
  let cleared := onCellKeydown refHost st "A1" Delete false false in
  let after := finishEditing refHost (startEditing cleared "A1") "A1" "7" in
  keys (data st) = ["A1"; "B1"] /\
  keys (data after) = ["B1"; "A1"] /\
  option_map format (lookup "A1" (data st)) = Some (Some "percent") /\
  option_map format (lookup "A1" (data after)) = Some None.
Proof.
  intros st cleared after.
  destruct (clear_then_commit_starts_afresh refHost st "A1" "7"
              eq_refl ltac:(discriminate)) as (_ & _ & Hkeys & Hformat & _).
  split; [reflexivity|]. split; [exact Hkeys|]. split; [reflexivity | exact Hformat].
Defined.
(** ** Keys: the editor opened by typing, and moving the selection *)

Section Keys.
Variable h : Host.

Lemma recalculateAll_grid (st : State) :
  rows (recalculateAll h st) = rows st /\
  cols (recalculateAll h st) = cols st /\
  selectedCell (recalculateAll h st) = selectedCell st.
Proof.
  unfold recalculateAll.
  destruct (pass_frame h (keys (data st)) st) as (_ & -> & -> & -> & _).
  repeat split.
Qed.

(** A handler that leaves the grid size and the selection alone keeps the
    selection in the grid. *)
Lemma selectionInGrid_frame (st st' : State) :
  rows st' = rows st -> cols st' = cols st -> selectedCell st' = selectedCell st ->
  selectionInGrid st -> selectionInGrid st'.
Proof.
  intros Hr Hc Hs Hin sel Hsel. rewrite Hs in Hsel.
  destruct (Hin sel Hsel) as (pos & Hp & Hrow & Hcol).
  exists pos. rewrite Hr, Hc. now repeat split.
Qed.

(** Selecting the cell of a position inside the grid *)
Lemma selectionInGrid_selectCell (st : State) (r c : Z) :
  0 <= r < rows st -> 0 <= c < cols st ->
  selectionInGrid (selectCell st (getCellId r c)).
Proof.
  intros Hr Hc sel Hsel. unfold selectCell in *. cbn in Hsel. injection Hsel as <-.
  exists {| col := c; row := r |}. cbn [rows cols withSelected row col].
  split; [apply parseCellId_getCellId; lia | now split].
Qed.

Lemma startEditing_grid (st : State) (cellId : string) :
  rows (startEditing st cellId) = rows st /\
  cols (startEditing st cellId) = cols st /\
  selectedCell (startEditing st cellId) = selectedCell st /\
  data (startEditing st cellId) = data st.
Proof. unfold startEditing. destruct (isEditing st); repeat split. Qed.

End Keys.

(** X6. Typing over a cell and then pressing Escape does not bring the
    value back: the first printable key (without Ctrl or Meta) on a grid
    cell empties the stored value at once, creating the record when there
    is none, and opens the editor; Escape closes the editor and writes the
    old display text back into the cell, so the record is left with an
    empty value beside its former formula, format and display value.  No
    other cell changes and nothing is recalculated.  Opening the editor
    with Enter and leaving it with Escape, by contrast, leaves the store as
    it was. *)
Theorem typing_then_escape_empties_the_value
    (h : Host) (st : State) (cellId val : string) (c : ascii) :
  isEditing st = false -> parseCellId cellId <> None ->
  let old := match lookup cellId (data st) with
             | Some cell => cell
             | None => emptyCell
             end in
  let typed := onCellKeydown h st cellId (Printable c) false false in
  let escaped := onEditorKeydown h typed cellId Escape val in
  isEditing typed = true /\ isEditing escaped = false /\
  lookup cellId (data escaped) =
    Some {| value := VStr ""; formula := formula old; format := format old;
            displayValue := displayValue old |} /\
  (forall k, k <> cellId -> lookup k (data escaped) = lookup k (data st)) /\
  cellText escaped =
    (cellText st ++ [(cellId, orElse (orElse (displayValue old) (VStr "")) (VStr ""))])%list /\
  data (onEditorKeydown h (onCellKeydown h st cellId Enter false false)
          cellId Escape val) = data st.
Proof.
  intros He Hp old typed escaped.
  assert (Htyped : typed =
            withEditing true
              (withData (assign cellId (setValue (VStr "") old) (data st)) st)).
  { subst typed old. unfold onCellKeydown.
    destruct (parseCellId cellId) as [pos|]; [|congruence].
    rewrite He. cbn [negb andb]. unfold startEditing.
    destruct (lookup cellId (data st)) as [cell|] eqn:Hk.
    - cbn [isEditing withData data]. rewrite Hk, He. reflexivity.
    - cbn [isEditing withData data]. rewrite lookup_assign_same, assign_assign, He.
      reflexivity. }
  subst escaped. rewrite Htyped.
  unfold onEditorKeydown, cancelEditing.
  cbn [isEditing data cellText writeText withData withEditing].
  rewrite lookup_assign_same.
  repeat split.
  - intros k Hk. now apply lookup_assign_other.
  - unfold onCellKeydown. destruct (parseCellId cellId); [|reflexivity].
    rewrite He. unfold startEditing. rewrite He. reflexivity.
Qed.

Lemma typing_then_escape_empties_the_value_witness :
  let st := session refHost [Commit "A1" "12"] in
  let escaped := onEditorKeydown refHost
                   (onCellKeydown refHost st "A1" (Printable "x") false false)
                   "A1" Escape "x" in
  lookup "A1" (data escaped) =
    Some {| value := VStr ""; formula := ""; format := None;
            displayValue := VStr "12" |} /\
  cellText escaped = (cellText st ++ [("A1", VStr "12")])%list.
Proof.
  intros st escaped.
  destruct (typing_then_escape_empties_the_value refHost st "A1" "x" "x"
              eq_refl ltac:(discriminate)) as (_ & _ & Hcell & _ & Htext & _).
  split; [exact Hcell | exact Htext].
Defined.

(** No key moves the selection off the grid. *)
Lemma keys_keep_selection_in_grid
    (h : Host) (st : State) (cellId val : string) (key : Key) (ctrlKey metaKey : bool) :
  inGrid st cellId -> selectionInGrid st ->
  selectionInGrid (onCellKeydown h st cellId key ctrlKey metaKey) /\
  selectionInGrid (onEditorKeydown h st cellId key val).
Proof.
  intros (pos & Hp & Hrow & Hcol) Hsel. split.
  - unfold onCellKeydown. rewrite Hp.
    destruct (isEditing st); [assumption|].
    destruct key; try assumption.
    + destruct (Z.ltb_spec 0 (row pos)); [|assumption].
      apply selectionInGrid_selectCell; lia.
    + destruct (Z.ltb_spec (row pos) (rows st - 1)); [|assumption].
      apply selectionInGrid_selectCell; lia.
    + destruct (Z.ltb_spec 0 (col pos)); [|assumption].
      apply selectionInGrid_selectCell; lia.
    + destruct (Z.ltb_spec (col pos) (cols st - 1)); [|assumption].
      apply selectionInGrid_selectCell; lia.
    + destruct (startEditing_grid st cellId) as (Hr & Hc & Hs & _).
      now apply (selectionInGrid_frame st).
    + set (st1 := writeText cellId (VStr "") (withData (remove cellId (data st)) st)).
      destruct (recalculateAll_grid h st1) as (Hr & Hc & Hs).
      now apply (selectionInGrid_frame st).
    + set (st1 := writeText cellId (VStr "") (withData (remove cellId (data st)) st)).
      destruct (recalculateAll_grid h st1) as (Hr & Hc & Hs).
      now apply (selectionInGrid_frame st).
    + destruct (negb ctrlKey && negb metaKey); [|assumption].
      cbv zeta.
      match goal with |- selectionInGrid (startEditing ?s _) =>
        destruct (startEditing_grid s cellId) as (Hr & Hc & Hs & _) end.
      apply (selectionInGrid_frame st); try assumption.
      * rewrite Hr. now destruct (lookup cellId (data st)).
      * rewrite Hc. now destruct (lookup cellId (data st)).
      * rewrite Hs. now destruct (lookup cellId (data st)).
  - destruct (finishEditing_grid h st cellId val) as (Hr & Hc & Hs).
    assert (Hfin : selectionInGrid (finishEditing h st cellId val))
      by now apply (selectionInGrid_frame st).
    unfold onEditorKeydown. destruct key; try assumption.
    + rewrite Hp. rewrite Hr.
      destruct (Z.ltb_spec (row pos) (rows st - 1)); [|assumption].
      apply selectionInGrid_selectCell; lia.
    + rewrite Hp. rewrite Hc.
      destruct (Z.ltb_spec (col pos) (cols st - 1)); [|assumption].
      apply selectionInGrid_selectCell; lia.
Qed.

(** What a key pressed on a grid cell does to the selection and to the
    grid size *)
Lemma onCellKeydown_selection
    (h : Host) (st : State) (cellId : string) (pos : CellPos) (key : Key)
    (ctrlKey metaKey : bool) :
  parseCellId cellId = Some pos ->
  let after := onCellKeydown h st cellId key ctrlKey metaKey in
  rows after = rows st /\ cols after = cols st /\
  selectedCell after =
    if isEditing st then selectedCell st
    else match key with
         | ArrowUp =>
             if 0 <? row pos then Some (getCellId (row pos - 1) (col pos))
             else selectedCell st
         | ArrowDown =>
             if row pos <? rows st - 1 then Some (getCellId (row pos + 1) (col pos))
             else selectedCell st
         | ArrowLeft =>
             if 0 <? col pos then Some (getCellId (row pos) (col pos - 1))
             else selectedCell st
         | ArrowRight =>
             if col pos <? cols st - 1 then Some (getCellId (row pos) (col pos + 1))
             else selectedCell st
         | _ => selectedCell st
         end.
Proof.
  intros Hp after. subst after. unfold onCellKeydown. rewrite Hp.
  destruct (isEditing st) eqn:He; [repeat split|].
  destruct key; try (repeat split; fail).
  - destruct (0 <? row pos); repeat split.
  - destruct (row pos <? rows st - 1); repeat split.
  - destruct (0 <? col pos); repeat split.
  - destruct (col pos <? cols st - 1); repeat split.
  - destruct (startEditing_grid st cellId) as (Hr & Hc & Hs & _). now repeat split.
  - set (st1 := writeText cellId (VStr "") (withData (remove cellId (data st)) st)).
    destruct (recalculateAll_grid h st1) as (Hr & Hc & Hs). now repeat split.
  - set (st1 := writeText cellId (VStr "") (withData (remove cellId (data st)) st)).
    destruct (recalculateAll_grid h st1) as (Hr & Hc & Hs). now repeat split.
  - destruct (negb ctrlKey && negb metaKey); [|repeat split].
    cbv zeta.
    match goal with |- context [startEditing ?s _] =>
      destruct (startEditing_grid s cellId) as (Hr & Hc & Hs & _) end.
    rewrite Hr, Hc, Hs. destruct (lookup cellId (data st)); repeat split.
Qed.

(** What a key pressed in the cell editor does to the selection and to the
    grid size *)
Lemma onEditorKeydown_selection
    (h : Host) (st : State) (cellId val : string) (pos : CellPos) (key : Key) :
  parseCellId cellId = Some pos ->
  let after := onEditorKeydown h st cellId key val in
  rows after = rows st /\ cols after = cols st /\
  selectedCell after =
    match key with
    | Enter =>
        if row pos <? rows st - 1 then Some (getCellId (row pos + 1) (col pos))
        else selectedCell st
    | Tab =>
        if col pos <? cols st - 1 then Some (getCellId (row pos) (col pos + 1))
        else selectedCell st
    | _ => selectedCell st
    end.
Proof.
  intros Hp after. subst after.
  destruct (finishEditing_grid h st cellId val) as (Hr & Hc & Hs).
  unfold onEditorKeydown. destruct key; try (repeat split; fail).
  - rewrite Hp, Hr. destruct (row pos <? rows st - 1); now repeat split.
  - rewrite Hp, Hc. destruct (col pos <? cols st - 1); now repeat split.
Qed.

(** X7. The keyboard never moves the selection off the grid: a key pressed
    on a cell of the grid (arrows, Enter, Delete, typing), or Enter, Tab or
    Escape pressed in the editor of such a cell, leaves the grid size as it
    was and the selected cell, when there is one, inside the grid.  An
    arrow key pressed while no editor is open selects the neighbour one
    step away in its direction, and at the first or last row or column it
    leaves the selection where it is; Enter and Tab in the editor select
    the neighbour below and to the right in the same way; every other key,
    and every key pressed on a grid cell while an editor is open, leaves
    the selection where it is. *)
Theorem keyboard_keeps_selection_in_grid
    (h : Host) (st : State) (cellId val : string) (key : Key) (ctrlKey metaKey : bool) :
  inGrid st cellId -> selectionInGrid st ->
  let onCell := fun k => onCellKeydown h st cellId k ctrlKey metaKey in
  let onEditor := fun k => onEditorKeydown h st cellId k val in
  selectionInGrid (onCell key) /\
  selectionInGrid (onEditor key) /\
  (rows (onCell key) = rows st /\ cols (onCell key) = cols st /\
   rows (onEditor key) = rows st /\ cols (onEditor key) = cols st) /\
  exists pos,
    parseCellId cellId = Some pos /\
    (isEditing st = false ->
       selectedCell (onCell ArrowUp) =
         (if row pos =? 0 then selectedCell st
          else Some (getCellId (row pos - 1) (col pos))) /\
       selectedCell (onCell ArrowDown) =
         (if row pos =? rows st - 1 then selectedCell st
          else Some (getCellId (row pos + 1) (col pos))) /\
       selectedCell (onCell ArrowLeft) =
         (if col pos =? 0 then selectedCell st
          else Some (getCellId (row pos) (col pos - 1))) /\
       selectedCell (onCell ArrowRight) =
         (if col pos =? cols st - 1 then selectedCell st
          else Some (getCellId (row pos) (col pos + 1)))) /\
    (isEditing st = true -> forall k, selectedCell (onCell k) = selectedCell st) /\
    (forall k, match k with
               | ArrowUp | ArrowDown | ArrowLeft | ArrowRight => True
               | _ => selectedCell (onCell k) = selectedCell st
               end) /\
    selectedCell (onEditor Enter) =
      (if row pos =? rows st - 1 then selectedCell st
       else Some (getCellId (row pos + 1) (col pos))) /\
    selectedCell (onEditor Tab) =
      (if col pos =? cols st - 1 then selectedCell st
       else Some (getCellId (row pos) (col pos + 1))) /\
    (forall k, match k with
               | Enter | Tab => True
               | _ => selectedCell (onEditor k) = selectedCell st
               end).
Proof.
  intros Hin Hsel onCell onEditor.
  destruct (keys_keep_selection_in_grid h st cellId val key ctrlKey metaKey Hin Hsel)
    as [Hcell Heditor].
  destruct Hin as (pos & Hp & Hrow & Hcol).
  pose proof (fun k => onCellKeydown_selection h st cellId pos k ctrlKey metaKey Hp)
    as Hc.
  pose proof (fun k => onEditorKeydown_selection h st cellId val pos k Hp) as He.
  cbv zeta in Hc, He.
  split; [exact Hcell|]. split; [exact Heditor|]. split.
  { destruct (Hc key) as (H1 & H2 & _). destruct (He key) as (H3 & H4 & _).
    now repeat split. }
  exists pos. split; [exact Hp|]. split; [|split; [|split; [|split; [|split]]]].
  - intros Hidle. subst onCell. cbv beta.
    destruct (Hc ArrowUp) as (_ & _ & ->). destruct (Hc ArrowDown) as (_ & _ & ->).
    destruct (Hc ArrowLeft) as (_ & _ & ->). destruct (Hc ArrowRight) as (_ & _ & ->).
    rewrite Hidle.
    destruct (Z.ltb_spec 0 (row pos)), (Z.eqb_spec (row pos) 0); try lia;
    destruct (Z.ltb_spec (row pos) (rows st - 1)), (Z.eqb_spec (row pos) (rows st - 1));
      try lia;
    destruct (Z.ltb_spec 0 (col pos)), (Z.eqb_spec (col pos) 0); try lia;
    destruct (Z.ltb_spec (col pos) (cols st - 1)), (Z.eqb_spec (col pos) (cols st - 1));
      try lia;
    repeat split.
  - intros Hbusy k. subst onCell. cbv beta.
    destruct (Hc k) as (_ & _ & ->). now rewrite Hbusy.
  - intros k. subst onCell. cbv beta.
    destruct k; try exact I;
      match goal with |- selectedCell (onCellKeydown _ _ _ ?k _ _) = _ =>
        destruct (Hc k) as (_ & _ & ->) end;
      destruct (isEditing st); reflexivity.
  - subst onEditor. cbv beta. destruct (He Enter) as (_ & _ & ->).
    destruct (Z.ltb_spec (row pos) (rows st - 1)), (Z.eqb_spec (row pos) (rows st - 1));
      try lia; reflexivity.
  - subst onEditor. cbv beta. destruct (He Tab) as (_ & _ & ->).
    destruct (Z.ltb_spec (col pos) (cols st - 1)), (Z.eqb_spec (col pos) (cols st - 1));
      try lia; reflexivity.
  - intros k. subst onEditor. cbv beta.
    destruct k; try exact I;
      match goal with |- selectedCell (onEditorKeydown _ _ _ ?k _) = _ =>
        destruct (He k) as (_ & _ & ->) end;
      reflexivity.
Qed.

Lemma keyboard_keeps_selection_in_grid_witness :
  let st := selectCell initialState "A50" in
  selectionInGrid (onCellKeydown refHost st "A50" ArrowDown false false) /\
  selectedCell (onCellKeydown refHost st "A50" ArrowDown false false) = Some "A50" /\
  selectedCell (onCellKeydown refHost st "A50" ArrowUp false false) = Some "A49" /\
  selectedCell (onCellKeydown refHost st "A50" ArrowLeft false false) = Some "A50" /\
  selectedCell (onCellKeydown refHost st "A50" ArrowRight false false) = Some "B50".
Proof.
  intros st.
  assert (Hin : inGrid st "A50").
  { exists {| col := 0; row := 49 |}.
    split; [reflexivity | cbn [row col rows cols st selectCell withSelected initialState];
            cbn; lia]. }
  assert (Hsel : selectionInGrid st).
  { intros sel Hs. injection Hs as <-. exact Hin. }
  destruct (keyboard_keeps_selection_in_grid refHost st "A50" "7" ArrowDown false false
              Hin Hsel) as (Hcell & _ & _ & pos & Hp & Harrows & _).
  injection Hp as <-.
  destruct (Harrows eq_refl) as (Hup & Hdown & Hleft & Hright).
  split; [exact Hcell|]. split; [exact Hdown|]. split; [exact Hup|].
  split; [exact Hleft | exact Hright].
Defined.
(** ** Escaping for markup and for CSV, and the status bar *)

Lemma replaceChar_app (c : ascii) (by_ s t : string) :
  replaceChar c by_ (s ++ t) = replaceChar c by_ s ++ replaceChar c by_ t.
Proof.
  induction s as [|x s IH]; simpl; [reflexivity|].
  rewrite IH. now rewrite append_assoc.
Qed.

Lemma occurs_app (c : ascii) (s t : string) :
  occurs c (s ++ t) = occurs c s || occurs c t.
Proof.
  induction s as [|x s IH]; simpl; [reflexivity|].
  rewrite IH. apply orb_assoc.
Qed.

(** The four replacements of [escapeHtml], applied to one character, give
    its entity: a later replacement does not touch what an earlier one
    wrote. *)
Lemma escapeHtml_char (c : ascii) :
  replaceChar quoteChar "&quot;"
    (replaceChar ">" "&gt;"
      (replaceChar "<" "&lt;"
        (replaceChar "&" "&amp;" (String c "")))) = entity c.
Proof. destruct c as [[] [] [] [] [] [] [] []]; reflexivity. Qed.

Lemma escapeHtml_each (v : JsValue) :
  escapeHtml v = escapeEach (toString v).
Proof.
  unfold escapeHtml.
  induction (toString v) as [|c s IH]; [reflexivity|].
  change (String c s) with (String c "" ++ s).
  rewrite !replaceChar_app, IH, escapeHtml_char. reflexivity.
Qed.

Lemma entity_clean (c : ascii) :
  occurs "<" (entity c) = false /\ occurs ">" (entity c) = false /\
  occurs quoteChar (entity c) = false.
Proof. destruct c as [[] [] [] [] [] [] [] []]; repeat split; reflexivity. Qed.

Lemma escapeEach_clean (s : string) :
  occurs "<" (escapeEach s) = false /\ occurs ">" (escapeEach s) = false /\
  occurs quoteChar (escapeEach s) = false.
Proof.
  induction s as [|c s (IH1 & IH2 & IH3)]; [repeat split|].
  destruct (entity_clean c) as (H1 & H2 & H3).
  cbn [escapeEach]. rewrite !occurs_app, H1, H2, H3, IH1, IH2, IH3.
  repeat split.
Qed.

(** The five shapes of an entity *)
Lemma entity_cases (c : ascii) :
  (c = "&"%char /\ entity c = "&amp;") \/
  (c = "<"%char /\ entity c = "&lt;") \/
  (c = ">"%char /\ entity c = "&gt;") \/
  (c = quoteChar /\ entity c = "&quot;") \/
  (c <> "&"%char /\ entity c = String c "").
Proof.
  unfold entity.
  destruct (Ascii.eqb_spec c "&") as [->|Hamp]; [now left|].
  destruct (Ascii.eqb_spec c "<") as [->|Hlt]; [right; now left|].
  destruct (Ascii.eqb_spec c ">") as [->|Hgt]; [right; right; now left|].
  destruct (Ascii.eqb_spec c quoteChar) as [->|Hq]; [right; right; right; now left|].
  right; right; right; right. now split.
Qed.

Lemma escapeEach_injective (s : string) : forall t,
  escapeEach s = escapeEach t -> s = t.
Proof.
  induction s as [|c s IH]; intros [|d t] H.
  - reflexivity.
  - exfalso. cbn [escapeEach] in H.
    destruct (entity_cases d) as [[_ E]|[[_ E]|[[_ E]|[[_ E]|[_ E]]]]];
      rewrite E in H; discriminate.
  - exfalso. cbn [escapeEach] in H.
    destruct (entity_cases c) as [[_ E]|[[_ E]|[[_ E]|[[_ E]|[_ E]]]]];
      rewrite E in H; discriminate.
  - cbn [escapeEach] in H.
    destruct (entity_cases c) as [[Hc E]|[[Hc E]|[[Hc E]|[[Hc E]|[Hc E]]]]];
      destruct (entity_cases d) as [[Hd F]|[[Hd F]|[[Hd F]|[[Hd F]|[Hd F]]]]];
      rewrite E, F in H; cbn in H;
      try discriminate;
      try (injection H as H; subst; f_equal; now apply IH);
      try (injection H as Hhead H; congruence).
Qed.

(** X8. Escaping for the editor's markup: [escapeHtml] replaces every
    character of the text of its argument by its entity exactly once (an
    ampersand written by a later replacement is not escaped again), so its
    result holds no angle bracket and no double quote, and it loses
    nothing: two values with the same escaped form have the same text. *)
Theorem escapeHtml_is_safe_and_faithful (v w : JsValue) :
  escapeHtml v = escapeEach (toString v) /\
  occurs "<" (escapeHtml v) = false /\
  occurs ">" (escapeHtml v) = false /\
  occurs quoteChar (escapeHtml v) = false /\
  (escapeHtml v = escapeHtml w -> toString v = toString w).
Proof.
  rewrite !escapeHtml_each.
  destruct (escapeEach_clean (toString v)) as (H1 & H2 & H3).
  repeat split; try assumption.
  apply escapeEach_injective.
Qed.

(** Doubling the quotes and closing the field is injective. *)
Lemma csv_quoting_injective (s : string) : forall t,
  replaceChar quoteChar (quote ++ quote) s ++ quote =
  replaceChar quoteChar (quote ++ quote) t ++ quote -> s = t.
Proof.
  induction s as [|c s IH]; intros [|d t] H.
  - reflexivity.
  - exfalso. cbn [replaceChar] in H.
    destruct (Ascii.eqb_spec d quoteChar) as [->|Hd]; cbn in H.
    + injection H as H. discriminate.
    + injection H as H _. congruence.
  - exfalso. cbn [replaceChar] in H.
    destruct (Ascii.eqb_spec c quoteChar) as [->|Hc]; cbn in H.
    + injection H as H. discriminate.
    + injection H as H _. congruence.
  - cbn [replaceChar] in H.
    destruct (Ascii.eqb_spec c quoteChar) as [->|Hc];
      destruct (Ascii.eqb_spec d quoteChar) as [->|Hd]; cbn in H.
    + injection H as H. f_equal. now apply IH.
    + injection H as H _. congruence.
    + injection H as H _. congruence.
    + injection H as Hcd H. subst. f_equal. now apply IH.
Qed.

Lemma csvField_text (cellData : option Cell) :
  csvField cellData =
  quote ++ replaceChar quoteChar (quote ++ quote) (csvText cellData) ++ quote.
Proof.
  unfold csvField, csvText, orElse.
  destruct cellData as [c|]; [|reflexivity].
  destruct (truthy (value c)); reflexivity.
Qed.

Lemma countChar_app (c : ascii) (s t : string) :
  countChar c (s ++ t) = (countChar c s + countChar c t)%nat.
Proof.
  induction s as [|x s IH]; cbn [append countChar]; [reflexivity|].
  rewrite IH. lia.
Qed.

(** Doubling the quotes: every quote of the text gives two, every other
    character itself. *)
Lemma csv_quoting_counts (s : string) :
  countChar quoteChar (replaceChar quoteChar (quote ++ quote) s) =
    (2 * countChar quoteChar s)%nat /\
  String.length (replaceChar quoteChar (quote ++ quote) s) =
    (String.length s + countChar quoteChar s)%nat /\
  (countChar quoteChar s = O -> replaceChar quoteChar (quote ++ quote) s = s).
Proof.
  induction s as [|x s (IH1 & IH2 & IH3)]; [repeat split|].
  cbn [replaceChar countChar String.length].
  destruct (Ascii.eqb_spec x quoteChar) as [->|Hx].
  - rewrite countChar_app, length_append, IH1, IH2.
    repeat split; cbn; lia.
  - rewrite countChar_app, length_append, IH1, IH2.
    assert (Hc : countChar quoteChar (String x "") = O).
    { cbn [countChar]. apply Ascii.eqb_neq in Hx. now rewrite Hx. }
    rewrite Hc. repeat split; try (cbn; lia).
    intros H. cbn [append]. f_equal. apply IH3. exact H.
Qed.

(** X9. A field of the CSV export is made from the cell's stored value
    alone (not its formula, format or display value): it is the text of
    the value between two double quotes, every double quote of the text
    written twice and every other character as it is.  The quoting loses
    nothing: two cells export the same field only if their texts are the
    same.  The text of a cell whose value is falsy is empty, so a formula
    cell whose result is the number 0 is exported as the empty field, like
    a cell that is not there. *)
Theorem csv_field_is_faithful_except_for_zero (a b : option Cell) (cell : Cell) :
  csvField a = quote ++ replaceChar quoteChar (quote ++ quote) (csvText a) ++ quote /\
  replaceChar quoteChar (quote ++ quote) (String quoteChar (csvText a)) =
    quote ++ quote ++ replaceChar quoteChar (quote ++ quote) (csvText a) /\
  (forall c, c <> quoteChar ->
     replaceChar quoteChar (quote ++ quote) (String c (csvText a)) =
     String c (replaceChar quoteChar (quote ++ quote) (csvText a))) /\
  countChar quoteChar (csvField a) = (2 + 2 * countChar quoteChar (csvText a))%nat /\
  String.length (csvField a) =
    (2 + String.length (csvText a) + countChar quoteChar (csvText a))%nat /\
  (countChar quoteChar (csvText a) = O -> csvField a = quote ++ csvText a ++ quote) /\
  (csvField a = csvField b -> csvText a = csvText b) /\
  (truthy (value cell) = true -> csvText (Some cell) = toString (value cell)) /\
  (value cell = VNum PrimFloat.zero -> csvField (Some cell) = csvField None) /\
  csvField None = quote ++ quote.
Proof.
  destruct (csv_quoting_counts (csvText a)) as (Hcount & Hlen & Hplain).
  split; [apply csvField_text|]. split; [reflexivity|]. split.
  { intros c Hc. cbn [replaceChar]. apply Ascii.eqb_neq in Hc. now rewrite Hc. }
  split.
  { rewrite csvField_text. unfold quote at 1 4.
    cbn [append countChar]. rewrite countChar_app, Hcount.
    cbn [countChar]. rewrite Ascii.eqb_refl. lia. }
  split.
  { rewrite csvField_text. unfold quote at 1 4.
    cbn [append String.length]. rewrite length_append, Hlen. cbn [String.length]. lia. }
  split.
  { intros H0. rewrite csvField_text. now rewrite (Hplain H0). }
  split; [|split; [|split]].
  - rewrite !csvField_text. intros H. cbn in H. injection H as H.
    now apply csv_quoting_injective.
  - intros Ht. unfold csvText. now rewrite Ht.
  - intros Hv. rewrite !csvField_text. unfold csvText. rewrite Hv. reflexivity.
  - reflexivity.
Qed.

Lemma statusValues_spec (d : CellStore) (selected : option string)
    (selectedRange : list string) :
  statusValues d selected selectedRange =
  numericValues d (statusCells selected selectedRange).
Proof.
  unfold statusValues, statusCells, numericValues.
  rewrite (fold_left_push _ _ _ (numericValue d)).
  - rewrite flat_map_app. f_equal.
    destruct selected as [sel|]; [|reflexivity].
    destruct (isEmpty sel); [reflexivity|].
    cbn [flat_map]. rewrite app_nil_r. unfold numericValue.
    destruct (lookup sel d) as [cell|]; [|reflexivity].
    destruct (PrimFloat.is_nan (parseFloatOf (value cell))); reflexivity.
  - intros acc cellId. unfold numericValue.
    destruct (lookup cellId d) as [cell|]; [|now rewrite app_nil_r].
    destruct (PrimFloat.is_nan (parseFloatOf (value cell)));
      cbn [negb]; [now rewrite app_nil_r | reflexivity].
Qed.

(** X10. The status bar: its three texts are computed from the numeric
    values of the selected cell followed by those of the cells of the
    selected range (a cell that is in both is counted twice), the very
    values the range functions of formulas take from the same cells: the
    sum and the average with two decimals, and the count.  None of the
    values is NaN; when there is none, the bar reads 0.00, 0.00 and 0. *)
Theorem status_bar_totals (d : CellStore) (selected : option string)
    (selectedRange : list string) :
  let values := numericValues d (statusCells selected selectedRange) in
  updateStatusCalculations d selected selectedRange =
    (toFixed (sumValues values) 2,
     toFixed (if lengthOf values =? 0 then PrimFloat.zero
              else PrimFloat.div (sumValues values) (floatOfZ (lengthOf values))) 2,
     lengthOf values) /\
  noNaN values /\
  (values = [] ->
     updateStatusCalculations d selected selectedRange = ("0.00", "0.00", 0)) /\
  (forall start end_ a b,
     parseCellId start = Some a -> parseCellId end_ = Some b ->
     updateStatusCalculations d None (spanCells a b) =
       (toFixed (sumRange d start end_) 2, toFixed (avgRange d start end_) 2,
        countRange d start end_)).
Proof.
  intros values. unfold updateStatusCalculations.
  rewrite statusValues_spec. fold values.
  split; [reflexivity|]. split; [apply numericValues_noNaN|]. split.
  - intros ->. reflexivity.
  - intros start end_ a b Ha Hb.
    rewrite statusValues_spec.
    unfold sumRange, avgRange, countRange.
    rewrite (getRangeValues_spec d start end_ a b Ha Hb). reflexivity.
Qed.
(** ** Saving and loading *)

Lemma split_not_nil (sep : ascii) (s : string) : split sep s <> [].
Proof.
  destruct s as [|c s]; simpl; [discriminate|].
  destruct (Ascii.eqb c sep); [discriminate|].
  destruct (split sep s); discriminate.
Qed.

Lemma split_none (sep : ascii) (s : string) :
  occurs sep s = false -> split sep s = [s].
Proof.
  induction s as [|c s IH]; simpl; [reflexivity|].
  intros H. apply orb_false_elim in H as [Hc Hs].
  rewrite Hc, (IH Hs). reflexivity.
Qed.

(** Splitting at the last separator *)
Lemma split_app (sep : ascii) (parent name : string) :
  occurs sep name = false ->
  split sep (parent ++ String sep name) = (split sep parent ++ [name])%list.
Proof.
  intros Hname. induction parent as [|c p IH]; simpl.
  - rewrite Ascii.eqb_refl, split_none by assumption. reflexivity.
  - rewrite IH. destruct (Ascii.eqb c sep); [reflexivity|].
    pose proof (split_not_nil sep p) as Hne.
    destruct (split sep p) as [|part parts]; [congruence | reflexivity].
Qed.

Lemma join_cons (sep part : string) (c : ascii) (parts : list string) :
  join sep (String c part :: parts) = String c (join sep (part :: parts)).
Proof. destruct parts; reflexivity. Qed.

(** Joining the parts of a split gives the text back. *)
Lemma join_split (sep : ascii) (s : string) :
  join (String sep "") (split sep s) = s.
Proof.
  induction s as [|c s IH]; simpl; [reflexivity|].
  pose proof (split_not_nil sep s) as Hne.
  destruct (Ascii.eqb_spec c sep) as [->|Hc].
  - destruct (split sep s) as [|part parts]; [congruence|].
    change (join (String sep "") ("" :: part :: parts))
      with ("" ++ String sep "" ++ join (String sep "") (part :: parts)).
    now rewrite IH.
  - destruct (split sep s) as [|part parts]; [congruence|].
    rewrite join_cons. now rewrite IH.
Qed.

Lemma isEmpty_app_char (s t : string) (c : ascii) : isEmpty (s ++ String c t) = false.
Proof. destruct s; reflexivity. Qed.

Lemma occurs_not_equal (c : ascii) (s t u : string) :
  occurs c s = false -> s <> t ++ String c u.
Proof.
  intros Hs ->. rewrite occurs_app in Hs. simpl in Hs.
  rewrite Ascii.eqb_refl, orb_true_r in Hs. discriminate.
Qed.

(** The name and the folder [saveToFilesystem] takes from a path that ends
    in a name without a slash *)
Lemma saveToFilesystem_target (parent name title : string) (st : State)
    (files : FileStore) :
  occurs "/" name = false ->
  saveToFilesystem (Some (parent ++ "/" ++ name)) title st files =
  saveFile name (if isEmpty parent then "/" else parent)
    {| snapTitle := Some title; snapData := Some (data st);
       snapRows := Some (rows st); snapCols := Some (cols st) |} files.
Proof.
  intros Hname. unfold saveToFilesystem.
  change (parent ++ "/" ++ name) with (parent ++ String "/" name).
  rewrite isEmpty_app_char, split_app by assumption.
  cbv zeta. rewrite last_last, removelast_last.
  change "/" with (String "/"%char "") at 1 3.
  rewrite join_split. reflexivity.
Qed.

(** X11. Saving to the file system and opening the file again: for a path
    made of a folder, a slash and a name without a slash, where the folder
    is not the bare root slash, [saveToFilesystem] stores the file under
    exactly that path, with that name and the type its name gives, and
    leaves every other path alone; [loadFromFilesystem] of the path then
    restores the cell records exactly as they were, and the row and column
    counts (a count of 0 comes back as the default).  A path without any
    slash is not written back in place: the file goes under the slash
    followed by the name, and the path itself keeps what it had. *)
Theorem file_save_then_load
    (st st0 : State) (title parent name : string) (files : FileStore) :
  occurs "/" name = false -> parent <> "/" ->
  let path := parent ++ "/" ++ name in
  let saved := saveToFilesystem (Some path) title st files in
  let loaded := loadFromFilesystem (getFile path saved) st0 in
  (exists file, saved path = Some file /\ filePath file = path /\
                fileName file = name /\ fileType file = getFileType name) /\
  (forall p, p <> path -> saved p = files p) /\
  data loaded = data st /\
  rows loaded = (if rows st =? 0 then defaultRows CONFIG else rows st) /\
  cols loaded = (if cols st =? 0 then defaultCols CONFIG else cols st) /\
  (name <> "" ->
   getFile name (saveToFilesystem (Some name) title st files) = getFile name files).
Proof.
  intros Hname Hparent path saved loaded.
  assert (Hpath : (if String.eqb (if isEmpty parent then "/" else parent) "/"
                   then "/" ++ name
                   else (if isEmpty parent then "/" else parent) ++ "/" ++ name) = path).
  { subst path. destruct parent as [|c p]; [reflexivity|].
    cbn [isEmpty]. destruct (String.eqb_spec (String c p) "/"); [congruence | reflexivity]. }
  assert (Hsaved : saved = saveFile name (if isEmpty parent then "/" else parent)
            {| snapTitle := Some title; snapData := Some (data st);
               snapRows := Some (rows st); snapCols := Some (cols st) |} files).
  { subst saved path. now apply saveToFilesystem_target. }
  assert (Hfile : saved path = Some
            {| filePath := path; fileName := name;
               fileParent := if isEmpty parent then "/" else parent;
               fileType := getFileType name;
               fileContent := Some {| snapTitle := Some title; snapData := Some (data st);
                                      snapRows := Some (rows st);
                                      snapCols := Some (cols st) |} |}).
  { rewrite Hsaved. unfold saveFile. rewrite Hpath, String.eqb_refl. reflexivity. }
  split; [|split; [|split; [|split; [|split]]]].
  - eexists. split; [exact Hfile|]. repeat split.
  - intros p Hp. rewrite Hsaved. unfold saveFile. rewrite Hpath.
    apply String.eqb_neq in Hp. now rewrite Hp.
  - subst loaded. unfold getFile. rewrite Hfile. reflexivity.
  - subst loaded. unfold getFile. rewrite Hfile. reflexivity.
  - subst loaded. unfold getFile. rewrite Hfile. reflexivity.
  - intros Hne.
    assert (Hroot : saveToFilesystem (Some name) title st files =
              saveFile name "/"
                {| snapTitle := Some title; snapData := Some (data st);
                   snapRows := Some (rows st); snapCols := Some (cols st) |} files).
    { unfold saveToFilesystem. apply isEmpty_false in Hne. rewrite Hne.
      rewrite split_none by assumption. reflexivity. }
    rewrite Hroot. unfold getFile, saveFile.
    change (String.eqb "/" "/") with true. cbv iota.
    destruct (String.eqb_spec name ("/" ++ name)) as [E|_]; [|reflexivity].
    exfalso. revert E. apply (occurs_not_equal "/" name "" name Hname).
Qed.

Lemma file_save_then_load_witness :
  let st := session refHost [Commit "A1" "2"; Commit "B1" "=A1/0"] in
  let saved := saveToFilesystem (Some "/docs/budget.numbers") "Budget" st (fun _ => None) in
  data (loadFromFilesystem (getFile "/docs/budget.numbers" saved) initialState) = data st.
Proof.
  intros st saved.
  destruct (file_save_then_load st initialState "Budget" "/docs" "budget.numbers"
              (fun _ => None) eq_refl ltac:(discriminate))
    as (_ & _ & Hdata & _).
  exact Hdata.
Defined.

Lemma lookup_map (f : Cell -> Cell) (k : string) (d : CellStore) :
  lookup k (map (fun kc => (fst kc, f (snd kc))) d) = option_map f (lookup k d).
Proof.
  induction d as [|[k0 c0] d IH]; simpl; [reflexivity|].
  destruct (String.eqb k0 k); [reflexivity | exact IH].
Qed.

Lemma keys_map (f : Cell -> Cell) (d : CellStore) :
  keys (map (fun kc => (fst kc, f (snd kc))) d) = keys d.
Proof.
  unfold keys. rewrite map_map. reflexivity.
Qed.

(** X12. Saving to local storage and loading again: the keys come back in
    the same order, each record with its formula and format, and with its
    value and display value when these are texts; the row and column
    counts come back too (a count of 0 as the default).  A number that is
    not finite does not survive: it comes back as null, so a formula cell
    that showed Infinity is drawn empty after the reload. *)
Theorem local_save_then_load (st st0 : State) (title : string) :
  let loaded := loadFromLocalStorage (saveToLocalStorage title st) st0 in
  keys (data loaded) = keys (data st) /\
  rows loaded = (if rows st =? 0 then defaultRows CONFIG else rows st) /\
  cols loaded = (if cols st =? 0 then defaultCols CONFIG else cols st) /\
  (forall k, lookup k (data st) = None -> lookup k (data loaded) = None) /\
  (forall k cell, lookup k (data st) = Some cell ->
     exists cell',
       lookup k (data loaded) = Some cell' /\
       formula cell' = formula cell /\ format cell' = format cell /\
       (forall s, value cell = VStr s -> value cell' = VStr s) /\
       (forall s, displayValue cell = VStr s -> displayValue cell' = VStr s) /\
       (forall x, value cell = VNum x -> PrimFloat.is_finite x = false ->
          value cell' = VNull) /\
       (forall x, value cell = VNum x -> displayValue cell = VNum x ->
          PrimFloat.is_finite x = false -> shownValue (Some cell') = VStr "")).
Proof.
  intros loaded. subst loaded.
  unfold loadFromLocalStorage, saveToLocalStorage, restore.
  cbn [snapData snapRows snapCols data rows cols withData withRows withCols orDefault].
  rewrite keys_map.
  split; [reflexivity|]. split; [reflexivity|]. split; [reflexivity|]. split.
  - intros k Hk. now rewrite lookup_map, Hk.
  - intros k cell Hk. exists (jsonCell cell).
    rewrite lookup_map, Hk. split; [reflexivity|].
    split; [reflexivity|]. split; [reflexivity|].
    unfold jsonCell, shownValue. cbn [value displayValue].
    repeat split.
    + intros s ->. reflexivity.
    + intros s ->. reflexivity.
    + intros x -> Hx. cbn [jsonValue]. now rewrite Hx.
    + intros x -> -> Hx. cbn [jsonValue]. now rewrite Hx.
Qed.

Lemma toLowerCase_app (s t : string) :
  toLowerCase (s ++ t) = toLowerCase s ++ toLowerCase t.
Proof. induction s as [|c s IH]; simpl; [reflexivity | now rewrite IH]. Qed.

Lemma getFileType_extension (name ext : string) :
  isEmpty name = false -> endsWithChar "/" name = false ->
  last (split "." name) "" = ext ->
  getFileType name =
    if String.eqb (toLowerCase ext) "words" then WORDS
    else if String.eqb (toLowerCase ext) "numbers" then NUMBERS
    else if String.eqb (toLowerCase ext) "txt" then TEXT
    else UNKNOWN.
Proof.
  intros Hne Hslash Hext. unfold getFileType.
  rewrite Hne, Hslash, Hext. reflexivity.
Qed.

(** X13. The type of a file: it is a folder exactly when its name is empty
    or ends with a slash; otherwise the type is decided by the text after
    the last dot alone, without regard to letter case, and by the whole
    name when there is no dot, so that a file called Numbers, without any
    extension, is taken for a spreadsheet. *)
Theorem file_type_from_extension (name base base' ext ext' : string) :
  (getFileType name = FOLDER <-> name = "" \/ endsWithChar "/" name = true) /\
  (occurs "." ext = false -> occurs "." ext' = false ->
   toLowerCase ext = toLowerCase ext' ->
   endsWithChar "/" (base ++ "." ++ ext) = false ->
   endsWithChar "/" (base' ++ "." ++ ext') = false ->
   getFileType (base ++ "." ++ ext) = getFileType (base' ++ "." ++ ext')) /\
  (occurs "." name = false -> toLowerCase name = "numbers" ->
   getFileType name = NUMBERS).
Proof.
  split; [|split].
  - unfold getFileType. destruct name as [|c n]; [cbn; tauto|].
    cbn [isEmpty orb].
    destruct (endsWithChar "/" (String c n)).
    + split; [intros _; now right | reflexivity].
    + split.
      * intros H.
        destruct (String.eqb _ "words"); [discriminate|].
        destruct (String.eqb _ "numbers"); [discriminate|].
        destruct (String.eqb _ "txt"); discriminate.
      * intros [H|H]; discriminate.
  - intros Hext Hext' Hlow Hs Hs'.
    rewrite (getFileType_extension (base ++ "." ++ ext) ext);
      [| apply isEmpty_app_char | assumption |].
    + rewrite (getFileType_extension (base' ++ "." ++ ext') ext');
        [| apply isEmpty_app_char | assumption |].
      * now rewrite Hlow.
      * change (base' ++ "." ++ ext') with (base' ++ String "." ext').
        rewrite split_app by assumption. apply last_last.
    + change (base ++ "." ++ ext) with (base ++ String "." ext).
      rewrite split_app by assumption. apply last_last.
  - intros Hdot Hlow.
    assert (Hne : isEmpty name = false) by (destruct name; [discriminate | reflexivity]).
    assert (Hslash : endsWithChar "/" name = false).
    { destruct (endsWithChar "/" name) eqn:E; [|reflexivity]. exfalso.
      assert (Hl : forall s, endsWithChar "/" s = true ->
                     endsWithChar "/" (toLowerCase s) = true).
      { induction s as [|c s IHs]; [discriminate|].
        destruct s as [|c' s'].
        - cbn. intros Hc. apply Ascii.eqb_eq in Hc. subst c. reflexivity.
        - intros Hc. change (endsWithChar "/" (String c (String c' s')))
            with (endsWithChar "/" (String c' s')) in Hc.
          specialize (IHs Hc). cbn [toLowerCase] in *.
          exact IHs. }
      specialize (Hl name E). rewrite Hlow in Hl. discriminate. }
    rewrite (getFileType_extension name name Hne Hslash).
    + rewrite Hlow. reflexivity.
    + now rewrite split_none.
Qed.
(** ** Redrawing the grid, and the guards of the editor *)

Lemma is_zero_spec (x : float) :
  PrimFloat.is_zero x = true -> x = PrimFloat.zero \/ x = PrimFloat.neg_zero.
Proof.
  unfold PrimFloat.is_zero. rewrite FloatAxioms.eqb_spec.
  change (Prim2SF PrimFloat.zero) with (S754_zero false).
  intros H. rewrite <- (FloatAxioms.SF2Prim_Prim2SF x).
  destruct (Prim2SF x) as [[|]|[|]| |[|] m e]; try (cbn in H; discriminate).
  - now right.
  - now left.
Qed.

(** X14. Redrawing the grid: [generateSpreadsheet] (run on every change of
    the grid size and on opening) puts into a cell the display value of its
    record when that is truthy, and nothing for a cell without record.  A
    record whose unformatted value is the number 0 is the exception: the
    edit or recalculation that computed it wrote the text 0 into the cell,
    the redraw leaves the cell empty. *)
Theorem redraw_leaves_zero_empty (h : Host) (cell : Cell) (x : float) :
  wellFormed h cell -> format cell = None ->
  value cell = VNum x -> PrimFloat.is_zero x = true ->
  toString (displayValue cell) = "0" /\
  shownValue (Some cell) = VStr "" /\
  shownValue None = VStr "" /\
  (forall other, truthy (displayValue other) = true ->
     shownValue (Some other) = displayValue other).
Proof.
  intros (Hd & _) Hf Hv Hx. rewrite Hv, Hf in Hd. cbn [formatValue] in Hd.
  assert (Ht : truthy (VNum x) = false) by (cbn [truthy]; now rewrite Hx).
  unfold shownValue, orElse. rewrite Hd, Hv, !Ht. cbn [toString].
  split; [|split; [reflexivity | split; [reflexivity|]]].
  - destruct (is_zero_spec x Hx) as [->| ->]; vm_compute; reflexivity.
  - intros other Ho. now rewrite !Ho.
Qed.

Lemma redraw_leaves_zero_empty_witness :
  let cell := {| value := VNum PrimFloat.zero; formula := "=1-1"; format := None;
                 displayValue := VNum PrimFloat.zero |} in
  lookup "A1" (data (session refHost [Commit "A1" "=1-1"])) = Some cell /\
  toString (displayValue cell) = "0" /\
  shownValue (Some cell) = VStr "".
Proof.
  intros cell. split; [vm_compute; reflexivity|].
  destruct (redraw_leaves_zero_empty refHost cell PrimFloat.zero) as (H1 & H2 & _).
  - unfold wellFormed. split; [reflexivity|]. split.
    + intros H. discriminate.
    + intros _. split; [reflexivity|]. intros H. discriminate.
  - reflexivity.
  - reflexivity.
  - reflexivity.
  - split; assumption.
Defined.

(** X15. One editor at a time, one commit per edit: while an editor is
    open, keys pressed on grid cells do nothing and no second editor opens;
    once an edit is committed, a second commit (the blur that follows
    Enter or Tab) changes nothing; and a commit without an open editor
    changes nothing either. *)
Theorem editor_guards (h : Host) (st : State) (cellId cellId' input input' : string)
    (key : Key) (ctrlKey metaKey : bool) :
  finishEditing h (finishEditing h st cellId input) cellId' input' =
    finishEditing h st cellId input /\
  (isEditing st = true ->
     onCellKeydown h st cellId' key ctrlKey metaKey = st /\
     startEditing st cellId' = st) /\
  (isEditing st = false -> finishEditing h st cellId input = st) /\
  isEditing (startEditing st cellId) = true.
Proof.
  split; [|split; [|split]].
  - apply finishEditing_idle, finishEditing_not_editing.
  - intros He. unfold onCellKeydown, startEditing. rewrite He.
    split; [|reflexivity]. now destruct (parseCellId cellId').
  - apply finishEditing_idle.
  - unfold startEditing. destruct (isEditing st) eqn:He; [exact He | reflexivity].
Qed.
